(** * RankZen contact-form engagement engine: a shallow embedding

    The development follows [app/form_submitter.py], [app/captcha_solver.py]
    and the [RateLimiter] class of [app/discovery.py].  Python strings are
    modelled as [string] (ASCII text), dictionaries as [gmap], ordered
    dictionaries whose iteration order matters as association lists, and
    effectful code as state passing over an explicit world. *)

From Stdlib Require Import ZArith QArith Ascii String List Bool Lia.
From stdpp Require Import gmap strings list fin_maps.

#[local] Set Warnings "-register-all".

Local Open Scope string_scope.
Local Open Scope Z_scope.

(** ** Python string primitives *)

Module PyStr.

(** [str.lower()] restricted to ASCII text: only 'A'..'Z' move. *)
Definition lower_ascii (c : ascii) : ascii :=
  let n := N_of_ascii c in
  if ((65 <=? n) && (n <=? 90))%N then ascii_of_N (n + 32) else c.

Fixpoint lower (s : string) : string :=
  match s with
  | EmptyString => EmptyString
  | String c s' => String (lower_ascii c) (lower s')
  end.

(** [s.startswith(p)] *)
Fixpoint startswith (p s : string) : bool :=
  match p, s with
  | EmptyString, _ => true
  | String _ _, EmptyString => false
  | String a p', String b s' => Ascii.eqb a b && startswith p' s'
  end.

(** The operator [needle in hay] on strings. *)
Fixpoint py_in (needle hay : string) : bool :=
  startswith needle hay ||
  match hay with
  | EmptyString => false
  | String _ hay' => py_in needle hay'
  end.

(** [any(k in s for k in keys)] *)
Definition any_in (keys : list string) (s : string) : bool :=
  existsb (fun k => py_in k s) keys.

(** [x == s] for an optional string [x] ([d.get(k) == s]). *)
Definition opt_is (x : option string) (s : string) : bool :=
  match x with Some y => String.eqb y s | None => false end.

(** Truthiness of a [str]. *)
Definition truthy (s : string) : bool :=
  match s with EmptyString => false | _ => true end.

End PyStr.

Import PyStr.

(** ** Outcome classifier: [FormSubmitter._check_submission_success] *)

Module Classifier.

(** The part of [requests.Response] the classifier reads. *)
Record Response := mkResponse { status_code : Z; text : string }.

Definition success_indicators : list string :=
  [ "thank you"; "success"; "submitted"; "received"; "sent";
    "confirmation"; "message sent"; "inquiry received" ].

Definition error_indicators : list string :=
  [ "error"; "failed"; "invalid"; "required"; "missing";
    "incorrect"; "wrong"; "try again" ].

(** [x in l] for a list of integers. *)
Definition Z_in (x : Z) (l : list Z) : bool := existsb (Z.eqb x) l.

Definition _check_submission_success (response : Response) : bool :=
  if negb (Z_in (status_code response) [200; 201; 302; 303]) then false
  else
    let response_text := lower (text response) in
    if any_in error_indicators response_text then false
    else if any_in success_indicators response_text then true
    else Z_in (status_code response) [200; 201].

(** The classifier as the specification words it: the same four-step
    decision, over the phrase lists the specification enumerates. *)
Definition spec_error_phrases : list string :=
  [ "error"; "failed"; "invalid"; "required"; "missing";
    "incorrect"; "try again" ].

Definition spec_success_phrases : list string :=
  [ "thank you"; "success"; "submitted"; "received"; "sent";
    "confirmation"; "message sent" ].

Definition classify_with (errors successes : list string)
    (response : Response) : bool :=
  if negb (Z_in (status_code response) [200; 201; 302; 303]) then false
  else if any_in errors (lower (text response)) then false
  else if any_in successes (lower (text response)) then true
  else Z_in (status_code response) [200; 201].

Definition spec_classifier : Response -> bool :=
  classify_with spec_error_phrases spec_success_phrases.

(** The specification's classifier with the one phrase it leaves out. *)
Definition spec_classifier_with_wrong : Response -> bool :=
  classify_with (spec_error_phrases ++ ["wrong"]) spec_success_phrases.

End Classifier.

Import Classifier.

(** ** The parsed page: the part of a BeautifulSoup tree the engine reads *)

Module Bs4.

(** A [Tag] carries its name, its single-valued attributes (a dict,
    looked up by key), its [class] attribute the way the parser stores
    it (a list of tokens, absent when the markup has none) and its
    contents in document order. *)
Inductive node : Type :=
| Tag (name : string) (attrs : list (string * string))
      (class_ : option (list string)) (contents : list node)
| NavigableString (s : string).

Fixpoint assoc (key : string) (d : list (string * string)) : option string :=
  match d with
  | [] => None
  | (k, v) :: d' => if String.eqb k key then Some v else assoc key d'
  end.

(** [tag.get(key)] *)
Definition get (key : string) (n : node) : option string :=
  match n with
  | Tag _ attrs _ _ => assoc key attrs
  | NavigableString _ => None
  end.

(** [tag.get(key, default)] *)
Definition get_default (key default : string) (n : node) : string :=
  match get key n with Some v => v | None => default end.

(** [tag.get('class', [])] *)
Definition get_class (n : node) : list string :=
  match n with
  | Tag _ _ (Some cs) _ => cs
  | _ => []
  end.

(** [' '.join(l)] *)
Fixpoint join_space (l : list string) : string :=
  match l with
  | [] => ""
  | [x] => x
  | x :: l' => x ++ " " ++ join_space l'
  end.

(** All descendants of a node, in document order. *)
Fixpoint descendants (n : node) : list node :=
  match n with
  | Tag _ _ _ cs =>
      (fix go (l : list node) : list node :=
         match l with
         | [] => []
         | c :: l' => c :: descendants c ++ go l'
         end) cs
  | NavigableString _ => []
  end.

Definition is_tag (name : string) (n : node) : bool :=
  match n with
  | Tag t _ _ _ => String.eqb t name
  | NavigableString _ => false
  end.

(** [tag.find_all(name)] *)
Definition find_all (name : string) (n : node) : list node :=
  List.filter (is_tag name) (descendants n).

(** [tag.find(name)] *)
Definition find (name : string) (n : node) : option node :=
  head (find_all name n).

(** First descendant satisfying a predicate: [soup.find(...)] with a
    filter. *)
Definition find_where (p : node -> bool) (n : node) : option node :=
  head (List.filter p (descendants n)).

Definition str_in_list (x : string) (l : list string) : bool :=
  existsb (String.eqb x) l.

End Bs4.

Import Bs4.

(** ** Form locator and field mapper: [FormSubmitter] *)

Module FormSubmitter.

Record OutreachMessage := mkMessage { subject : string; message : string }.

Record BusinessSite := mkSite {
  url : string;
  domain : string;
  contact_form_url : option string
}.

Definition contact_indicators : list string :=
  [ "contact"; "message"; "inquiry"; "quote"; "consultation";
    "appointment"; "booking"; "request"; "form" ].

(** The three attribute checks made on a form. *)
Definition form_attr_match (form : node) : bool :=
  any_in contact_indicators (lower (get_default "action" "" form))
  || any_in contact_indicators (lower (get_default "id" "" form))
  || any_in contact_indicators (lower (join_space (get_class form))).

(** The test made on each input of a form:
    [any(indicator in input_name or indicator in input_placeholder ...)]. *)
Definition input_match (input_field : node) : bool :=
  let input_name := lower (get_default "name" "" input_field) in
  let input_placeholder := lower (get_default "placeholder" "" input_field) in
  existsb (fun indicator =>
             py_in indicator input_name || py_in indicator input_placeholder)
          contact_indicators.

Definition form_inputs_match (form : node) : bool :=
  existsb input_match (find_all "input" form).

(** The body of the [for form in forms] loop: the first form for which
    one of the [return form] statements fires. *)
Fixpoint first_contact_form (forms : list node) : option node :=
  match forms with
  | [] => None
  | form :: forms' =>
      if form_attr_match form then Some form
      else if form_inputs_match form then Some form
      else first_contact_form forms'
  end.

Definition _find_contact_form (soup : node) : option node :=
  let forms := find_all "form" soup in
  match first_contact_form forms with
  | Some form => Some form
  | None => head forms
  end.

(** [field_mappings], an ordered dict: iteration follows insertion order. *)
Definition field_mappings (msg : OutreachMessage) : list (string * string) :=
  [ ("name", "John Smith");
    ("email", "john.smith@example.com");
    ("phone", "555-123-4567");
    ("subject", subject msg);
    ("message", message msg);
    ("comment", message msg);
    ("inquiry", message msg);
    ("content", message msg);
    ("description", message msg);
    ("details", message msg);
    ("company", "SEO Consulting");
    ("website", "https://example.com") ].

(** [for key, value in mappings.items(): if key in field_name_lower: return value] *)
Fixpoint first_key_in (mappings : list (string * string))
    (field_name_lower : string) : option string :=
  match mappings with
  | [] => None
  | (key, value) :: mappings' =>
      if py_in key field_name_lower then Some value
      else first_key_in mappings' field_name_lower
  end.

(** [mappings[key]] is [assoc key mappings]; every key read below is
    present in [field_mappings]. *)
Definition _get_field_value (field_name : string)
    (mappings : list (string * string)) : option string :=
  let field_name_lower := lower field_name in
  match first_key_in mappings field_name_lower with
  | Some value => Some value
  | None =>
      if py_in "name" field_name_lower then assoc "name" mappings
      else if py_in "email" field_name_lower then assoc "email" mappings
      else if py_in "phone" field_name_lower || py_in "tel" field_name_lower
      then assoc "phone" mappings
      else if py_in "subject" field_name_lower then assoc "subject" mappings
      else if any_in ["message"; "comment"; "inquiry"; "content"] field_name_lower
      then assoc "message" mappings
      else None
  end.

(** Truthiness of [tag.get(key)]: present and non-empty. *)
Definition opt_truthy (o : option string) : bool :=
  match o with Some v => truthy v | None => false end.

(** One iteration of [for input_field in inputs]. *)
Definition process_input (mappings : list (string * string))
    (form_data : gmap string string) (input_field : node) : gmap string string :=
  let input_type := lower (get_default "type" "text" input_field) in
  let input_name := get_default "name" "" input_field in
  if negb (truthy input_name) then form_data
  else if str_in_list input_type ["text"; "email"; "tel"] then
    match _get_field_value input_name mappings with
    | Some value =>
        if truthy value then <[input_name := value]> form_data else form_data
    | None => form_data
    end
  else if String.eqb input_type "hidden" then
    <[input_name := get_default "value" "" input_field]> form_data
  else if str_in_list input_type ["checkbox"; "radio"] then
    if opt_truthy (get "checked" input_field) || String.eqb input_type "checkbox"
    then <[input_name := get_default "value" "on" input_field]> form_data
    else form_data
  else form_data.

(** One iteration of [for textarea in textareas]. *)
Definition process_textarea (msg : OutreachMessage)
    (form_data : gmap string string) (textarea : node) : gmap string string :=
  let textarea_name := get_default "name" "" textarea in
  if truthy textarea_name then <[textarea_name := message msg]> form_data
  else form_data.

(** One iteration of [for select in selects]. *)
Definition process_select (form_data : gmap string string) (select : node)
    : gmap string string :=
  let select_name := get_default "name" "" select in
  if truthy select_name then
    match find "option" select with
    | Some first_option =>
        <[select_name := get_default "value" "" first_option]> form_data
    | None => form_data
    end
  else form_data.

Definition _prepare_form_data (form : node) (msg : OutreachMessage)
    (site : BusinessSite) : gmap string string :=
  let form_data : gmap string string := ∅ in
  let mappings := field_mappings msg in
  let inputs := find_all "input" form in
  let textareas := find_all "textarea" form in
  let selects := find_all "select" form in
  let form_data := foldl (process_input mappings) form_data inputs in
  let form_data := foldl (process_textarea msg) form_data textareas in
  foldl process_select form_data selects.

End FormSubmitter.

Import FormSubmitter.

(** ** CAPTCHA detection and the 2Captcha polling loops: [CaptchaSolver] *)

Module CaptchaSolver.

(** The [captcha_info] dict built by [detect_captcha_type]. *)
Record captcha_info := mkCaptchaInfo {
  has_captcha : bool;
  type : option string;
  site_key : option string;
  image_src : option string
}.

(** [class_='c'] matches a tag one of whose class tokens is [c]. *)
Definition has_class (c : string) (n : node) : bool :=
  str_in_list c (get_class n).

Definition is_captcha_img (n : node) : bool :=
  is_tag "img" n &&
  match get "src" n with
  | Some x => truthy x && py_in "captcha" (lower x)
  | None => false
  end.

Definition is_captcha_text (n : node) : bool :=
  match n with
  | NavigableString x => truthy x && py_in "captcha" (lower x)
  | Tag _ _ _ _ => false
  end.

Definition detect_captcha_type (soup : node) : captcha_info :=
  match find_where (fun n => is_tag "div" n && has_class "g-recaptcha" n) soup with
  | Some recaptcha_div =>
      mkCaptchaInfo true (Some "recaptcha") (get "data-sitekey" recaptcha_div) None
  | None =>
  match find_where (fun n => is_tag "div" n && has_class "h-captcha" n) soup with
  | Some hcaptcha_div =>
      mkCaptchaInfo true (Some "hcaptcha") (get "data-sitekey" hcaptcha_div) None
  | None =>
  match find_where is_captcha_img soup with
  | Some captcha_img => mkCaptchaInfo true (Some "image") None (get "src" captcha_img)
  | None =>
  match find_where is_captcha_text soup with
  | Some _ => mkCaptchaInfo true (Some "text") None None
  | None => mkCaptchaInfo false None None None
  end end end end.

(** One HTTP exchange with a solving service: the transport or
    [raise_for_status()] raises, or [response.json()] is a dict. *)
Inductive reply (A : Type) : Type :=
| HttpError
| Json (result : A).

Arguments HttpError {A}.
Arguments Json {A} result.

(** The keys read in a 2Captcha answer. *)
Record result_2captcha := mkResult2 {
  status : option Z;
  request : option string
}.

(** The keys read in an Anti-Captcha answer; [solution_text] and
    [solution_gRecaptchaResponse] stand for [result['solution']['text']]
    and [result['solution']['gRecaptchaResponse']], absent when either
    key is. *)
Record result_anticaptcha := mkResultA {
  errorId : option Z;
  taskId : option string;
  task_status : option string;
  solution_text : option string;
  solution_gRecaptchaResponse : option string
}.

(** The job submitted. *)
Inductive job :=
| ImageJob (body : string)
| RecaptchaJob (site_key page_url : string).

(** The two remote services: the answer to the submission, and the
    answer to the [n]-th status request (counted from 0) for a job id. *)
Record TwoCaptcha := mkTwoCaptcha {
  in_php : job -> reply result_2captcha;
  res_php : string -> nat -> reply result_2captcha
}.

Record AntiCaptcha := mkAntiCaptcha {
  createTask : job -> reply result_anticaptcha;
  getTaskResult : string -> nat -> reply result_anticaptcha
}.

(** [self.service]; the constructor raises for any other name. *)
Inductive provider :=
| Service2Captcha (svc : TwoCaptcha)
| ServiceAntiCaptcha (svc : AntiCaptcha).

Inductive log_event :=
| SubmissionFailed
| Solved
| SolutionFailed
| TimedOut
| Exception.

(** What a run leaves behind: the polls made, the seconds slept and the
    log lines written. *)
Record run := mkRun { polls : nat; slept : Z; log : list log_event }.

Definition start : run := mkRun 0 0 [].

Definition sleep (seconds : Z) (r : run) : run :=
  mkRun (polls r) (slept r + seconds) (log r).

Definition polled (r : run) : run := mkRun (S (polls r)) (slept r) (log r).

Definition logged (e : log_event) (r : run) : run :=
  mkRun (polls r) (slept r) (log r ++ [e])%list.

(** [x == 1] and [x == 0] for an optional integer. *)
Definition is_int (x : option Z) (n : Z) : bool :=
  match x with Some s => s =? n | None => false end.

(** What the [if]/[elif]/[else] of a loop body makes of an answer. *)
Inductive verdict :=
| Ready (solution : string)
| NotReady
| Failed
| Raised.

(** 2Captcha: [status == 1] returns [result['request']] (a missing key
    raises), [request == 'CAPCHA_NOT_READY'] continues, anything else
    fails. *)
Definition poll_2captcha (x : reply result_2captcha) : verdict :=
  match x with
  | HttpError => Raised
  | Json result =>
      if is_int (status result) 1 then
        match request result with
        | Some solution => Ready solution
        | None => Raised
        end
      else if opt_is (request result) "CAPCHA_NOT_READY" then NotReady
      else Failed
  end.

(** Anti-Captcha: [status == 'ready'] returns the solution field,
    [status == 'processing'] continues, anything else fails. *)
Definition poll_anticaptcha (field : result_anticaptcha -> option string)
    (x : reply result_anticaptcha) : verdict :=
  match x with
  | HttpError => Raised
  | Json result =>
      if opt_is (task_status result) "ready" then
        match field result with
        | Some solution => Ready solution
        | None => Raised
        end
      else if opt_is (task_status result) "processing" then NotReady
      else Failed
  end.

(** The loop [for _ in range(n): time.sleep(10); ...], the same in the
    four solving functions up to the bound and the reading of the
    answer; [answers i] is what the loop body makes of the [i]-th
    status request.  Falling out of the loop is the timed-out exit; an
    exception is caught by the enclosing [try], which logs and returns
    [None]. *)
Fixpoint wait_for_solution (answers : nat -> verdict) (n : nat) (r : run)
    : option string * run :=
  match n with
  | O => (None, logged TimedOut r)
  | S n' =>
      let r := sleep 10 r in
      let answer := answers (polls r) in
      let r := polled r in
      match answer with
      | Ready solution => (Some solution, logged Solved r)
      | NotReady => wait_for_solution answers n' r
      | Failed => (None, logged SolutionFailed r)
      | Raised => (None, logged Exception r)
      end
  end.

(** The submission step of the 2Captcha functions, then the loop. *)
Definition solve_2captcha (svc : TwoCaptcha) (j : job) (bound : nat)
    : option string * run :=
  match in_php svc j with
  | HttpError => (None, logged Exception start)
  | Json result =>
      if negb (is_int (status result) 1)
      then (None, logged SubmissionFailed start)
      else
        match request result with
        | None => (None, logged Exception start)
        | Some captcha_id =>
            wait_for_solution (fun i => poll_2captcha (res_php svc captcha_id i))
                              bound start
        end
  end.

(** The submission step of the Anti-Captcha functions, then the loop. *)
Definition solve_anticaptcha (svc : AntiCaptcha) (j : job)
    (field : result_anticaptcha -> option string) (bound : nat)
    : option string * run :=
  match createTask svc j with
  | HttpError => (None, logged Exception start)
  | Json result =>
      if negb (is_int (errorId result) 0)
      then (None, logged SubmissionFailed start)
      else
        match taskId result with
        | None => (None, logged Exception start)
        | Some task_id =>
            wait_for_solution
              (fun i => poll_anticaptcha field (getTaskResult svc task_id i))
              bound start
        end
  end.

(** The image is sent base64-encoded; the encoding is left to the
    service side of the model. *)
Definition _solve_2captcha_image (svc : TwoCaptcha) (image_data : string)
    : option string * run :=
  solve_2captcha svc (ImageJob image_data) 30.

Definition _solve_2captcha_recaptcha (svc : TwoCaptcha)
    (site_key page_url : string) : option string * run :=
  solve_2captcha svc (RecaptchaJob site_key page_url) 60.

Definition _solve_anticaptcha_image (svc : AntiCaptcha) (image_data : string)
    : option string * run :=
  solve_anticaptcha svc (ImageJob image_data) solution_text 30.

Definition _solve_anticaptcha_recaptcha (svc : AntiCaptcha)
    (site_key page_url : string) : option string * run :=
  solve_anticaptcha svc (RecaptchaJob site_key page_url)
                    solution_gRecaptchaResponse 60.

Definition solve_image_captcha (service : provider) (image_data : string)
    : option string * run :=
  match service with
  | Service2Captcha svc => _solve_2captcha_image svc image_data
  | ServiceAntiCaptcha svc => _solve_anticaptcha_image svc image_data
  end.

Definition solve_recaptcha (service : provider) (site_key page_url : string)
    : option string * run :=
  match service with
  | Service2Captcha svc => _solve_2captcha_recaptcha svc site_key page_url
  | ServiceAntiCaptcha svc => _solve_anticaptcha_recaptcha svc site_key page_url
  end.

(** The submission of job [j] was accepted under the id [id]. *)
Definition accepted (service : provider) (j : job) (id : string) : Prop :=
  match service with
  | Service2Captcha svc =>
      exists result, in_php svc j = Json result
                     /\ is_int (status result) 1 = true
                     /\ request result = Some id
  | ServiceAntiCaptcha svc =>
      exists result, createTask svc j = Json result
                     /\ is_int (errorId result) 0 = true
                     /\ taskId result = Some id
  end.

(** What the loops make of the successive answers for job [id]. *)
Definition image_answers (service : provider) (id : string) (i : nat) : verdict :=
  match service with
  | Service2Captcha svc => poll_2captcha (res_php svc id i)
  | ServiceAntiCaptcha svc => poll_anticaptcha solution_text (getTaskResult svc id i)
  end.

Definition recaptcha_answers (service : provider) (id : string) (i : nat)
    : verdict :=
  match service with
  | Service2Captcha svc => poll_2captcha (res_php svc id i)
  | ServiceAntiCaptcha svc =>
      poll_anticaptcha solution_gRecaptchaResponse (getTaskResult svc id i)
  end.

End CaptchaSolver.

Import CaptchaSolver.

(** ** The static submission path: [FormSubmitter.submit_contact_form] *)

Module Static.

(** Requests sent through [self.session], oldest first. *)
Inductive event :=
| GET (target : string)
| POST (target : string) (data : gmap string string).

Definition is_post (e : event) : bool :=
  match e with POST _ _ => true | GET _ => false end.

(** The outside world.  A request either raises (with the text of the
    exception) or yields a response; the answer may depend on the
    requests made so far.  [urljoin] raises on a malformed reference
    ([inl], with the text of the [ValueError]).  The HTML parser and the
    solving service behind [self.captcha_solver] are taken as given. *)
Record World := mkWorld {
  session_get : list event -> string -> string + Response;
  session_post : list event -> string -> gmap string string -> string + Response;
  BeautifulSoup : string -> node;
  urljoin : string -> string -> string + string;
  captcha_solver : provider
}.

(** Computations that send requests and may raise. *)
Definition M (A : Type) : Type := list event -> (string + A) * list event.

Definition ret {A} (a : A) : M A := fun tr => (inr a, tr).

(** A call that sends nothing and either raises or returns. *)
Definition lift {A} (x : string + A) : M A := fun tr => (x, tr).

Definition raise {A} (msg : string) : M A := fun tr => (inl msg, tr).

Definition bind {A B} (m : M A) (k : A -> M B) : M B :=
  fun tr =>
    match m tr with
    | (inr a, tr') => k a tr'
    | (inl msg, tr') => (inl msg, tr')
    end.

(** [try: m except Exception as e: handler(e)] *)
Definition try_except {A} (m : M A) (handler : string -> M A) : M A :=
  fun tr =>
    match m tr with
    | (inr a, tr') => (inr a, tr')
    | (inl msg, tr') => handler msg tr'
    end.

Notation "x <-- m ;; k" := (bind m (fun x => k))
  (at level 100, m at next level, right associativity, only parsing).

Definition get (w : World) (target : string) : M Response :=
  fun tr =>
    match session_get w tr target with
    | inr response => (inr response, (tr ++ [GET target])%list)
    | inl msg => (inl msg, (tr ++ [GET target])%list)
    end.

Definition post (w : World) (target : string) (data : gmap string string)
    : M Response :=
  fun tr =>
    match session_post w tr target data with
    | inr response => (inr response, (tr ++ [POST target data])%list)
    | inl msg => (inl msg, (tr ++ [POST target data])%list)
    end.

(** [response.raise_for_status()]; the text of the error is not modelled. *)
Definition raise_for_status (response : Response) : M unit :=
  if (400 <=? status_code response) && (status_code response <? 600)
  then raise "HTTPError"
  else ret tt.

(** The pydantic model [ContactForm] ([submission_date] is never set). *)
Record ContactForm := mkContactForm {
  cf_url : string;
  form_fields : gmap string string;
  cf_has_captcha : bool;
  captcha_type : option string;
  submitted : bool;
  error_message : option string
}.

(** [ContactForm(url=u, error_message=e)]: the other fields default. *)
Definition error_form (u e : string) : ContactForm :=
  mkContactForm u ∅ false None false (Some e).

Definition is_captcha_input (n : node) : bool :=
  is_tag "input" n &&
  match Bs4.get "name" n with
  | Some x => py_in "captcha" (lower x)
  | None => false
  end.

(** The [try] block of [_handle_captcha]; every test that fails falls
    through to the final [return None].  The solution dict holds one
    entry, returned here as a pair. *)
Definition handle_captcha_body (w : World) (info : captcha_info)
    (form_url : string) (soup : node) : M (option (string * string)) :=
  if opt_is (type info) "recaptcha" then
    match site_key info with
    | Some key =>
        if truthy key then
          match fst (solve_recaptcha (captcha_solver w) key form_url) with
          | Some solution =>
              if truthy solution
              then ret (Some ("g-recaptcha-response", solution))
              else ret None
          | None => ret None
          end
        else ret None
    | None => ret None
    end
  else if opt_is (type info) "image" then
    match image_src info with
    | Some src =>
        if truthy src then
          image_url <-- lift (urljoin w form_url src) ;;
          image_response <-- get w image_url ;;
          if status_code image_response =? 200 then
            match fst (solve_image_captcha (captcha_solver w)
                         (text image_response)) with
            | Some solution =>
                if truthy solution then
                  match find_where is_captcha_input soup with
                  | Some captcha_input =>
                      ret (Some (get_default "name" "" captcha_input, solution))
                  | None => ret None
                  end
                else ret None
            | None => ret None
            end
          else ret None
        else ret None
    | None => ret None
    end
  else ret None.

Definition _handle_captcha (w : World) (info : captcha_info)
    (form_url : string) (soup : node) : M (option (string * string)) :=
  try_except (handle_captcha_body w info form_url soup) (fun _ => ret None).

(** [_get_submit_url]; [inl] when [urljoin] raises. *)
Definition _get_submit_url (w : World) (form : node) (current_url : string)
    : string + string :=
  let action := get_default "action" "" form in
  if truthy action then
    if startswith "http" action then inr action else urljoin w current_url action
  else inr current_url.

(** The [try] block of [submit_contact_form]. *)
Definition submit_body (w : World) (form_url : string) (site : BusinessSite)
    (msg : OutreachMessage) : M ContactForm :=
  response <-- get w form_url ;;
  _ <-- raise_for_status response ;;
  let soup := BeautifulSoup w (text response) in
  match _find_contact_form soup with
  | None => ret (error_form form_url "No contact form found on page")
  | Some form =>
      let info := detect_captcha_type soup in
      let form_data := _prepare_form_data form msg site in
      (* [inl]: the early [return ContactForm(...)]; [inr]: go on *)
      step <-- (if has_captcha info then
                  captcha_solution <-- _handle_captcha w info form_url soup ;;
                  match captcha_solution with
                  | Some (k, v) => ret (inr (<[k := v]> form_data))
                  | None =>
                      ret (inl (mkContactForm form_url ∅ true (type info) false
                                  (Some "Failed to solve CAPTCHA")))
                  end
                else ret (inr form_data)) ;;
      match step with
      | inl contact_form => ret contact_form
      | inr form_data =>
          submit_url <-- lift (_get_submit_url w form form_url) ;;
          submit_response <-- post w submit_url form_data ;;
          let success := _check_submission_success submit_response in
          ret (mkContactForm form_url form_data (has_captcha info) (type info)
                 success
                 (if success then None else Some "Form submission failed"))
      end
  end.

Definition submit_contact_form (w : World) (site : BusinessSite)
    (msg : OutreachMessage) : M ContactForm :=
  match contact_form_url site with
  | None => ret (error_form (url site) "No contact form found")
  | Some form_url =>
      try_except (submit_body w form_url site msg)
                 (fun e => ret (error_form form_url e))
  end.

(** The run reached CAPTCHA detection on a page with a challenge: the
    form page was fetched, a form was located, and detection reports a
    challenge. *)
Definition challenge_detected (w : World) (form_url : string)
    (response : Response) : Prop :=
  session_get w [] form_url = inr response
  /\ ((400 <=? status_code response) && (status_code response <? 600)) = false
  /\ _find_contact_form (BeautifulSoup w (text response)) <> None
  /\ has_captcha (detect_captcha_type (BeautifulSoup w (text response))) = true.

(** No solution was obtained for that challenge. *)
Definition no_solution (w : World) (form_url : string) (response : Response)
    : Prop :=
  let soup := BeautifulSoup w (text response) in
  fst (_handle_captcha w (detect_captcha_type soup) form_url soup [GET form_url])
  = inr None.

End Static.

(** ** [RateLimiter] *)

Module RateLimiter.

(** The limiter's fields together with the wall clock it reads.  Time is
    in seconds, as an exact rational; [time.sleep(d)] moves the clock
    forward by [d].  The source computes with binary floats, which the
    rationals follow up to rounding: a clock value computed here is that
    of the source up to the rounding of a difference and a quotient,
    while which time is stored, which entries are written and when the
    division raises do not depend on rounding. *)
Record state := mkState {
  clock : Q;
  global_qps : Z;
  per_domain_qps : Z;
  last_global_call : Q;
  domain_calls : gmap string Q
}.

(** [RateLimiter(global_qps, per_domain_qps)] created at time [now]. *)
Definition init (now : Q) (global_qps per_domain_qps : Z) : state :=
  mkState now global_qps per_domain_qps 0 ∅.

Definition time_sleep (d : Q) (s : state) : state :=
  mkState (clock s + d) (global_qps s) (per_domain_qps s)
          (last_global_call s) (domain_calls s).

(** [1.0 / qps]; division by zero raises. *)
Definition min_interval (qps : Z) : option Q :=
  if (qps =? 0)%Z then None else Some (1 / inject_Z qps)%Q.

Definition Qltb (a b : Q) : bool := negb (Qle_bool b a).

(** [wait]; [None] is the [ZeroDivisionError]. *)
Definition wait (s : state) : option state :=
  let now := clock s in
  match min_interval (global_qps s) with
  | None => None
  | Some min_interval =>
      let s :=
        if Qltb (now - last_global_call s) min_interval
        then time_sleep (min_interval - (now - last_global_call s)) s
        else s in
      Some (mkState (clock s) (global_qps s) (per_domain_qps s)
                    (clock s) (domain_calls s))
  end.

(** [wait_for_domain]. *)
Definition wait_for_domain (domain : string) (s : state) : option state :=
  let now := clock s in
  match min_interval (per_domain_qps s) with
  | None => None
  | Some min_interval =>
      let s :=
        match domain_calls s !! domain with
        | Some last =>
            if Qltb (now - last) min_interval
            then time_sleep (min_interval - (now - last)) s
            else s
        | None => s
        end in
      Some (mkState (clock s) (global_qps s) (per_domain_qps s)
                    (last_global_call s) (<[domain := now]> (domain_calls s)))
  end.

End RateLimiter.

(** ** Vocabulary of the statements and concrete pages *)

Module Examples.

(** [input_field.get('name', '')], the key under which a field is sent. *)
Definition field_name (n : node) : string := get_default "name" "" n.

(** [input_field.get('type', 'text').lower()] *)
Definition field_type (n : node) : string := lower (get_default "type" "text" n).

(** A form matches when one of the [return form] tests of the loop fires. *)
Definition form_matches (form : node) : bool :=
  form_attr_match form || form_inputs_match form.

(** No field handled after [x] carries the name of [x]: the inputs that
    follow it, the textareas and the selects. *)
Definition unshadowed (form x : node) (later_inputs : list node) : Prop :=
  Forall (fun y => field_name y <> field_name x) later_inputs
  /\ Forall (fun y => field_name y <> field_name x) (find_all "textarea" form)
  /\ Forall (fun y => field_name y <> field_name x) (find_all "select" form).

Definition input (ty nm : string) (extra : list (string * string)) : node :=
  Tag "input" (("type", ty) :: ("name", nm) :: extra) None [].

Definition page (body : list node) : node := Tag "[document]" [] None body.

Definition msg0 : OutreachMessage := mkMessage "SEO audit" "We found three issues.".

Definition site0 : BusinessSite :=
  mkSite "https://shop.example" "shop.example"
         (Some "https://shop.example/contact").

(** A newsletter form with an input named [message], then the contact form. *)
Definition newsletter_form : node :=
  Tag "form" [("action", "/subscribe")] None [input "text" "message" []].

Definition contact_form : node :=
  Tag "form" [("action", "/contact")] None [input "text" "full_name" []].

Definition two_forms : node := page [newsletter_form; contact_form].

Definition email_name_input : node := input "text" "customer_email_name" [].

Definition email_name_form : node := Tag "form" [] None [email_name_input].

Definition email_form : node :=
  Tag "form" [] None [input "email" "Customer_Email" []].

Definition unchecked_box : node := input "checkbox" "newsletter" [].

Definition unchecked_form : node := Tag "form" [] None [unchecked_box].

Definition first_token : node := input "hidden" "token" [("value", "first")].

Definition second_token : node := input "hidden" "token" [("value", "second")].

Definition two_tokens_form : node := Tag "form" [] None [first_token; second_token].

Definition csrf_input : node := input "hidden" "csrf" [("value", "A b/+=9")].

Definition csrf_form : node :=
  Tag "form" [("action", "/send")] None
    [csrf_input; input "text" "full_name" []; Tag "input" [("type", "text")] None []].

End Examples.

(** ** The contract of a polling run *)

Module Polling.

(** What the loop owes, in terms of what its body makes of the
    successive answers. *)
Definition loop_contract (bound : nat) (answers : nat -> verdict)
    (out : option string * run) : Prop :=
  slept (snd out) = 10 * Z.of_nat (polls (snd out))
  /\ (polls (snd out) <= bound)%nat
  /\ (forall k token,
         (k < bound)%nat ->
         (forall i, (i < k)%nat -> answers i = NotReady) ->
         answers k = Ready token ->
         out = (Some token, mkRun (S k) (10 * Z.of_nat (S k)) [Solved]))
  /\ (forall k,
         (k < bound)%nat ->
         (forall i, (i < k)%nat -> answers i = NotReady) ->
         answers k = Failed \/ answers k = Raised ->
         fst out = None /\ polls (snd out) = S k
         /\ ~ In TimedOut (log (snd out)))
  /\ ((forall i, (i < bound)%nat -> answers i = NotReady) ->
      out = (None, mkRun bound (10 * Z.of_nat bound) [TimedOut])).

(** The two kinds of job, and the key of an Anti-Captcha solution that
    carries the answer to each. *)
Inductive kind := Image | Recaptcha.

Definition solution_field (k : kind) : result_anticaptcha -> option string :=
  match k with
  | Image => solution_text
  | Recaptcha => solution_gRecaptchaResponse
  end.

(** What the loop of a job of kind [k] makes of the successive replies. *)
Definition readings (service : provider) (k : kind) : string -> nat -> verdict :=
  match k with
  | Image => image_answers service
  | Recaptcha => recaptcha_answers service
  end.

(** The service's reply to the [i]-th status request for job [id] is a
    ready answer carrying [token]: with 2Captcha a JSON body with
    [status] 1 and [request] the token, with Anti-Captcha a JSON body
    with [status] "ready" and the token under the solution key of the
    kind. *)
Definition reply_ready (service : provider) (k : kind) (id : string)
    (i : nat) (token : string) : Prop :=
  match service with
  | Service2Captcha svc =>
      exists result, res_php svc id i = Json result
                     /\ status result = Some 1
                     /\ request result = Some token
  | ServiceAntiCaptcha svc =>
      exists result, getTaskResult svc id i = Json result
                     /\ task_status result = Some "ready"
                     /\ solution_field k result = Some token
  end.

(** The reply is a "not ready" answer: with 2Captcha a JSON body whose
    [status] is not 1 and whose [request] is CAPCHA_NOT_READY, with
    Anti-Captcha a JSON body with [status] "processing". *)
Definition reply_not_ready (service : provider) (id : string) (i : nat) : Prop :=
  match service with
  | Service2Captcha svc =>
      exists result, res_php svc id i = Json result
                     /\ status result <> Some 1
                     /\ request result = Some "CAPCHA_NOT_READY"
  | ServiceAntiCaptcha svc =>
      exists result, getTaskResult svc id i = Json result
                     /\ task_status result = Some "processing"
  end.

(** What a run whose job was accepted owes, in terms of the service's
    replies: ten seconds slept per poll; never more than [bound] polls;
    the token as soon as a reply is ready; failure as soon as a reply is
    neither ready nor "not ready" (a transport or HTTP error, any other
    body); and, when the first [bound] replies are all "not ready",
    failure by time-out after exactly [bound] polls. *)
Definition contract (bound : nat) (ready : nat -> string -> Prop)
    (not_ready : nat -> Prop) (out : option string * run) : Prop :=
  slept (snd out) = 10 * Z.of_nat (polls (snd out))
  /\ (polls (snd out) <= bound)%nat
  /\ (forall k token,
         (k < bound)%nat ->
         (forall i, (i < k)%nat -> not_ready i) ->
         ready k token ->
         out = (Some token, mkRun (S k) (10 * Z.of_nat (S k)) [Solved]))
  /\ (forall k,
         (k < bound)%nat ->
         (forall i, (i < k)%nat -> not_ready i) ->
         ~ not_ready k ->
         (forall token, ~ ready k token) ->
         fst out = None /\ polls (snd out) = S k
         /\ ~ In TimedOut (log (snd out)))
  /\ ((forall i, (i < bound)%nat -> not_ready i) ->
      out = (None, mkRun bound (10 * Z.of_nat bound) [TimedOut])).

(** A 2Captcha stub that accepts every job and never has the answer. *)
Definition never_ready : provider :=
  Service2Captcha
    (mkTwoCaptcha (fun _ => Json (mkResult2 (Some 1) (Some "job-1")))
                  (fun _ _ => Json (mkResult2 (Some 0) (Some "CAPCHA_NOT_READY")))).

(** An Anti-Captcha stub that has the token at the third poll. *)
Definition ready_at_third : provider :=
  ServiceAntiCaptcha
    (mkAntiCaptcha
       (fun _ => Json (mkResultA (Some 0) (Some "task-1") None None None))
       (fun _ n =>
          if (n <? 2)%nat
          then Json (mkResultA (Some 0) None (Some "processing") None None)
          else Json (mkResultA (Some 0) None (Some "ready") None (Some "03AGdBq2")))).

(** A 2Captcha stub that accepts every job and reports it unsolvable at
    the second poll. *)
Definition unsolvable_at_second : provider :=
  Service2Captcha
    (mkTwoCaptcha (fun _ => Json (mkResult2 (Some 1) (Some "job-2")))
                  (fun _ n =>
                     if (n <? 1)%nat
                     then Json (mkResult2 (Some 0) (Some "CAPCHA_NOT_READY"))
                     else Json (mkResult2 (Some 0) (Some "ERROR_CAPTCHA_UNSOLVABLE")))).

End Polling.

(** ** Concrete worlds and limiter states *)

Module Worlds.

Import Examples Polling Static.

(** A contact page guarded by a ReCaptcha widget. *)
Definition guarded_page : node :=
  page [ Tag "form" [("action", "/contact")] None
           [ input "text" "full_name" [];
             Tag "div" [("data-sitekey", "6Lc-key")] (Some ["g-recaptcha"]) [] ] ].

(** A site serving that page, with a solving service that never has the answer. *)
Definition solver_down : World :=
  mkWorld (fun _ _ => inr (mkResponse 200 "<html>"))
          (fun _ _ _ => inr (mkResponse 200 "thank you"))
          (fun _ => guarded_page)
          (fun base rel => inr base)
          never_ready.

(** A limiter that let a request to "a" through at t = 100 s, asked again
    a tenth of a second later, at two requests per second per domain. *)
Definition asked_again_early : RateLimiter.state :=
  RateLimiter.mkState (1001 # 10) 5 2 0 {[ "a" := 100%Q ]}.

End Worlds.

(** ** Contact-page discovery and search filtering: [app/discovery.py] *)

Module Discovery.

(** [s.rstrip('/')] *)
Fixpoint rstrip_slash (s : string) : string :=
  match s with
  | EmptyString => EmptyString
  | String c s' =>
      match rstrip_slash s' with
      | EmptyString => if Ascii.eqb c "/" then EmptyString else String c EmptyString
      | String c' r => String c (String c' r)
      end
  end.

Definition contact_patterns : list string :=
  [ "/contact"; "/contact-us"; "/get-in-touch"; "/reach-us";
    "/about/contact"; "/contact.html"; "/contact.php";
    "/contactus"; "/getintouch"; "/reachus"; "/inquiry";
    "/quote"; "/request-quote"; "/free-quote"; "/consultation" ].

Definition contact_indicators : list string :=
  [ "contact form"; "contact us"; "get in touch"; "send message";
    "inquiry form"; "quote request"; "free consultation" ].

(** The double-quote character. *)
Definition dquote : string := String (ascii_of_nat 34) EmptyString.

Definition form_indicators : list string :=
  [ "<form"; "method=" ++ dquote ++ "post" ++ dquote;
    "method=" ++ dquote ++ "get" ++ dquote; "action=";
    "input type="; "textarea"; "submit" ].

(** [for pattern in contact_patterns: if pattern in content: ...append(...)] *)
Fixpoint match_patterns (url_str content : string) (patterns : list string)
    : list string :=
  match patterns with
  | [] => []
  | pattern :: patterns' =>
      if py_in pattern content
      then (rstrip_slash url_str ++ pattern) :: match_patterns url_str content patterns'
      else match_patterns url_str content patterns'
  end.

(** Truthiness of a list. *)
Definition nonempty {A} (l : list A) : bool :=
  match l with [] => false | _ => true end.

(** The part of [find_contact_forms] that follows a 200 response. *)
Definition contact_urls_of (url_str content : string) : list string :=
  let contact_urls := match_patterns url_str content contact_patterns in
  let contact_urls :=
    if negb (nonempty contact_urls) then
      if any_in contact_indicators content then [url_str] else contact_urls
    else contact_urls in
  let contact_urls :=
    if negb (nonempty contact_urls) then
      if any_in form_indicators content then [url_str] else contact_urls
    else contact_urls in
  firstn 3 contact_urls.

(** [find_contact_forms]: [netloc] stands for [urlparse(url).netloc],
    [requests_get] for the GET (which may raise); the limiter is the
    state of [self.rate_limiter].  Any exception yields [[]]. *)
Definition find_contact_forms (netloc : string -> string)
    (requests_get : string -> string + Response)
    (url_str : string) (limiter : RateLimiter.state)
    : list string * RateLimiter.state :=
  match RateLimiter.wait_for_domain (netloc url_str) limiter with
  | None => ([], limiter)
  | Some limiter' =>
      match requests_get url_str with
      | inl _ => ([], limiter')
      | inr response =>
          if negb (status_code response =? 200) then ([], limiter')
          else (contact_urls_of url_str (lower (text response)), limiter')
      end
  end.

Definition excluded_patterns : list string :=
  [ "google.com"; "facebook.com"; "yelp.com"; "yellowpages.com";
    "angieslist.com"; "homeadvisor.com"; "thumbtack.com"; "nextdoor.com";
    "hugedomains.com"; "godaddy.com"; "domain.com"; "namecheap.com";
    "squarespace.com"; "wix.com"; "weebly.com"; "wordpress.com" ].

Definition _is_excluded_domain (domain : string) : bool :=
  any_in excluded_patterns (lower domain).

Definition skip_domains : list string :=
  [ "google.com"; "facebook.com"; "yelp.com"; "instagram.com";
    "twitter.com"; "linkedin.com"; "youtube.com"; "tiktok.com";
    "wikipedia.org"; "amazon.com"; "ebay.com"; "craigslist.org" ].

Definition _should_skip_domain (domain : string) : bool :=
  any_in skip_domains (lower domain).

(** [s[n:]] and [s[:n]] for a non-negative [n]. *)
Fixpoint drop (n : nat) (s : string) : string :=
  match n, s with
  | O, _ => s
  | S _, EmptyString => EmptyString
  | S n', String _ s' => drop n' s'
  end.

Fixpoint take (n : nat) (s : string) : string :=
  match n, s with
  | O, _ => EmptyString
  | S _, EmptyString => EmptyString
  | S n', String c s' => String c (take n' s')
  end.

(** The module-level [extract_domain] of [discovery.py]; [netloc url] is
    [urlparse(url).netloc], [None] when [urlparse] raises, which the bare
    [except] turns into the result [None]. *)
Definition extract_domain (netloc : string -> option string) (url : string)
    : option string :=
  match netloc url with
  | Some domain =>
      Some (if startswith "www." domain then drop 4 domain else domain)
  | None => None
  end.

(** An entry of [results['organic']]: the keys [link] and [title]. *)
Record organic_result := mkOrganic {
  link : option string;
  title : option string
}.

(** The dicts appended to [businesses]. *)
Record business := mkBusiness {
  name : string;
  domain : string;
  url : string
}.

(** [for result in results['organic'][:5]: ...]; a [None] domain is
    falsy. *)
Fixpoint collect_businesses (netloc : string -> option string)
    (results : list organic_result) : list business :=
  match results with
  | [] => []
  | result :: results' =>
      match link result, title result with
      | Some l, Some t =>
          match extract_domain netloc l with
          | Some domain =>
              if truthy domain && negb (_is_excluded_domain domain)
              then mkBusiness (take 50 t) domain l
                     :: collect_businesses netloc results'
              else collect_businesses netloc results'
          | None => collect_businesses netloc results'
          end
      | _, _ => collect_businesses netloc results'
      end
  end.

(** What the POST to the search API yields: an exception (transport,
    JSON decoding), or a status with the decoded body, of which the code
    reads the key [organic] (absent: [None]). *)
Definition _search_businesses (netloc : string -> option string)
    (api : string -> string -> string + (Z * option (list organic_result)))
    (search_term region : string) : list business :=
  match api search_term region with
  | inl _ => []
  | inr (status, organic) =>
      if status =? 200 then
        match organic with
        | Some results => collect_businesses netloc (firstn 5 results)
        | None => []
        end
      else []
  end.

End Discovery.

(** ** URL helpers: [app/utils.py] *)

Module Utils.

(** [clean_url] *)
Definition clean_url (url : string) : string :=
  let url :=
    if negb (startswith "http://" url || startswith "https://" url)
    then "https://" ++ url else url in
  Discovery.rstrip_slash url.

(** [s.endswith('/')] *)
Fixpoint ends_with_slash (s : string) : bool :=
  match s with
  | EmptyString => false
  | String c EmptyString => Ascii.eqb c "/"
  | String _ s' => ends_with_slash s'
  end.

End Utils.

(** ** Requests of the site session *)

Module Calls.

Definition is_get (e : Static.event) : bool := negb (Static.is_post e).

End Calls.

(** ** More concrete pages *)

Module MorePages.

Import Examples.

(** A sign-up form: password and number inputs, an unchecked radio
    button, a comment box and a select. *)
Definition signup_form : node :=
  Tag "form" [("action", "/join")] None
    [ input "password" "secret" [];
      input "number" "age" [];
      input "radio" "plan" [("value", "pro")];
      Tag "textarea" [("name", "notes")] None [];
      Tag "select" [("name", "country")] None
        [ Tag "option" [("value", "us")] None [NavigableString "United States"];
          Tag "option" [("value", "ca")] None [NavigableString "Canada"] ] ].

End MorePages.

(** ** Markers looked for by [detect_captcha_type] *)

Module Markers.

Definition is_recaptcha_div (n : node) : bool :=
  is_tag "div" n && has_class "g-recaptcha" n.

Definition is_hcaptcha_div (n : node) : bool :=
  is_tag "div" n && has_class "h-captcha" n.

(** The page holds an element that passes the test [p]. *)
Definition shows (p : node -> bool) (soup : node) : Prop :=
  exists d, In d (descendants soup) /\ p d = true.

(** The page shows none of the four markers. *)
Definition no_marker (soup : node) : Prop :=
  forall d, In d (descendants soup) ->
    is_recaptcha_div d = false /\ is_hcaptcha_div d = false
    /\ is_captcha_img d = false /\ is_captcha_text d = false.

(** The fetch of the form page went through and a form was located. *)
Definition form_located (w : Static.World) (form_url : string)
    (response : Response) (form : node) : Prop :=
  Static.session_get w [] form_url = inr response
  /\ ((400 <=? status_code response) && (status_code response <? 600)) = false
  /\ _find_contact_form (Static.BeautifulSoup w (text response)) = Some form.

End Markers.

(** ** More concrete worlds *)

Module MoreWorlds.

Import Examples Polling Static Worlds.

(** A site that is down. *)
Definition site_down : World :=
  mkWorld (fun _ _ => inl "ConnectionError")
          (fun _ _ _ => inr (mkResponse 200 "thank you"))
          (fun _ => guarded_page)
          (fun base rel => inr base)
          never_ready.

(** A plain contact page without challenge, on a site that thanks. *)
Definition plain_page : node := page [contact_form].

Definition friendly_site : World :=
  mkWorld (fun _ _ => inr (mkResponse 200 "<html>"))
          (fun _ _ _ => inr (mkResponse 200 "Thanks for contacting us!"))
          (fun _ => plain_page)
          (fun base rel => inr (base ++ rel)%string)
          never_ready.

(** The guarded page on a site whose solving service answers at the
    third poll. *)
Definition solver_up : World :=
  mkWorld (fun _ _ => inr (mkResponse 200 "<html>"))
          (fun _ _ _ => inr (mkResponse 200 "Thanks for contacting us!"))
          (fun _ => guarded_page)
          (fun base rel => inr (base ++ rel)%string)
          ready_at_third.

(** The form of the guarded page. *)
Definition guarded_form : node :=
  Tag "form" [("action", "/contact")] None
    [ input "text" "full_name" [];
      Tag "div" [("data-sitekey", "6Lc-key")] (Some ["g-recaptcha"]) [] ].

(** The form of the hCaptcha page below. *)
Definition hcaptcha_form : node :=
  Tag "form" [("action", "/contact")] None
    [ input "text" "full_name" [];
      Tag "div" [("data-sitekey", "10000000-ffff")] (Some ["h-captcha"]) [] ].

(** A page guarded by an hCaptcha widget. *)
Definition hcaptcha_page : node :=
  page [ Tag "form" [("action", "/contact")] None
           [ input "text" "full_name" [];
             Tag "div" [("data-sitekey", "10000000-ffff")] (Some ["h-captcha"]) [] ] ].

Definition hcaptcha_site : World :=
  mkWorld (fun _ _ => inr (mkResponse 200 "<html>"))
          (fun _ _ _ => inr (mkResponse 200 "Thanks for contacting us!"))
          (fun _ => hcaptcha_page)
          (fun base rel => inr (base ++ rel)%string)
          ready_at_third.

(** A page with a CAPTCHA image and a label that mentions it. *)
Definition image_and_text_page : node :=
  page [ Tag "form" [("action", "/contact")] None
           [ NavigableString "Type the CAPTCHA shown below";
             Tag "img" [("src", "/captcha.png")] None [];
             input "text" "captcha_code" [] ] ].

(** A form whose action is not a well-formed reference. *)
Definition broken_action_form : node :=
  Tag "form" [("action", "//[x")] None [ input "text" "message" [] ].

(** A site serving that form; [urljoin] raises on its action. *)
Definition broken_action_site : World :=
  mkWorld (fun _ _ => inr (mkResponse 200 "<html>"))
          (fun _ _ _ => inr (mkResponse 200 "Thanks for contacting us!"))
          (fun _ => page [broken_action_form])
          (fun base rel =>
             if startswith "//[" rel then inl "Invalid IPv6 URL"
             else inr (base ++ rel)%string)
          never_ready.

End MoreWorlds.

(** ** More limiter states and service stubs *)

Module MoreStubs.

(** A 2Captcha stub that refuses every job. *)
Definition out_of_credit : provider :=
  Service2Captcha
    (mkTwoCaptcha (fun _ => Json (mkResult2 (Some 0) (Some "ERROR_ZERO_BALANCE")))
                  (fun _ _ => Json (mkResult2 (Some 0) (Some "CAPCHA_NOT_READY")))).

(** A fresh limiter at two requests per second, read at t = 1000 s. *)
Definition fresh_limiter : RateLimiter.state := RateLimiter.init 1000 2 2.

End MoreStubs.

(** ** A site for the discovery step *)

Module DiscoveryStubs.




End DiscoveryStubs.

(** * Properties *)

Import Static.

(** ** Strings *)

Lemma app_nil_l' (t : string) : "" ++ t = t.
Proof. reflexivity. Qed.

Lemma app_cons (a : ascii) (s t : string) : String a s ++ t = String a (s ++ t).
Proof. reflexivity. Qed.

Lemma startswith_app (p t : string) : startswith p (p ++ t) = true.
Proof.
  induction p as [|a p IH]; [reflexivity|].
  rewrite app_cons. simpl. rewrite Ascii.eqb_refl. exact IH.
Qed.

Lemma startswith_split (p s : string) :
  startswith p s = true -> exists t, s = p ++ t.
Proof.
  revert s. induction p as [|a p IH]; intros s H.
  - exists s. reflexivity.
  - destruct s as [|b s]; simpl in H; [discriminate|].
    apply andb_prop in H as [Hab Hps].
    apply Ascii.eqb_eq in Hab. subst b.
    destruct (IH s Hps) as [t ->]. exists t. reflexivity.
Qed.

Lemma string_app_assoc (a b c : string) : (a ++ b) ++ c = a ++ (b ++ c).
Proof.
  induction a as [|x a IH]; [reflexivity|].
  rewrite !app_cons. now rewrite IH.
Qed.

(** [needle in hay] holds exactly when [hay] can be cut around [needle]. *)
Lemma py_in_spec (needle hay : string) :
  py_in needle hay = true <-> exists pre post, hay = pre ++ needle ++ post.
Proof.
  split.
  - induction hay as [|c hay IH]; simpl; intros H.
    + apply orb_prop in H as [H|H]; [|discriminate].
      destruct (startswith_split _ _ H) as [t Ht]. exists "", t. exact Ht.
    + apply orb_prop in H as [H|H].
      * destruct (startswith_split _ _ H) as [t Ht]. exists "", t. exact Ht.
      * destruct (IH H) as (pre & post & ->).
        exists (String c pre), post. reflexivity.
  - intros (pre & post & ->).
    induction pre as [|c pre IH].
    + rewrite app_nil_l'.
      destruct (needle ++ post) eqn:E; simpl; rewrite <- E;
        rewrite startswith_app; reflexivity.
    + rewrite app_cons. simpl. rewrite IH. apply orb_true_r.
Qed.

(** A text containing a phrase contains every tail of that phrase. *)
Lemma py_in_tail (a b hay : string) :
  py_in (a ++ b) hay = true -> py_in b hay = true.
Proof.
  rewrite !py_in_spec. intros (pre & post & ->).
  exists (pre ++ a), post. now rewrite !string_app_assoc.
Qed.


(** ** Outcome classifier *)

Lemma error_lists_agree (t : string) :
  any_in error_indicators t = any_in (spec_error_phrases ++ ["wrong"]) t.
Proof.
  unfold any_in, error_indicators, spec_error_phrases. simpl.
  destruct (py_in "error" t), (py_in "failed" t), (py_in "invalid" t),
    (py_in "required" t), (py_in "missing" t), (py_in "incorrect" t),
    (py_in "wrong" t), (py_in "try again" t); reflexivity.
Qed.

Lemma success_lists_agree (t : string) :
  any_in success_indicators t = any_in spec_success_phrases t.
Proof.
  unfold any_in, success_indicators, spec_success_phrases. simpl.
  destruct (py_in "inquiry received" t) eqn:E.
  - apply (py_in_tail "inquiry " "received") in E. rewrite E.
    rewrite !orb_true_r. reflexivity.
  - reflexivity.
Qed.

(** C1, as the specification states it, fails: a 200 response whose body
    says "Something went wrong" carries none of the seven error phrases
    the specification lists, yet the classifier reports failure where the
    specification's decision procedure reports success. *)
Lemma C1_counterexample :
  ~ (forall r : Response, _check_submission_success r = spec_classifier r).
Proof.
  intros H. specialize (H (mkResponse 200 "Something went wrong")).
  vm_compute in H. discriminate.
Qed.

(** C1 (amended): the classifier is the specification's four-step
    decision once "wrong" is counted among the error phrases: failure
    outside statuses 200, 201, 302, 303; else failure on any error
    phrase; else success on any success phrase; else success exactly for
    200 and 201. *)
Theorem C1_classifier_decision (r : Response) :
  _check_submission_success r = spec_classifier_with_wrong r.
Proof.
  unfold _check_submission_success, spec_classifier_with_wrong, classify_with.
  cbv zeta.
  rewrite error_lists_agree, success_lists_agree. reflexivity.
Qed.

(** The error check precedes the success check: a 200 body holding both
    "error" and "thank you" is a failure. *)
Lemma error_beats_thank_you (body : string) :
  py_in "error" (lower body) = true ->
  _check_submission_success (mkResponse 200 body) = false.
Proof.
  intros H. unfold _check_submission_success. simpl.
  unfold any_in, error_indicators. simpl. rewrite H. reflexivity.
Qed.

(** C10: a 302 or 303 response whose body carries neither an error
    phrase nor a success phrase is classified as a failure. *)
Theorem C10_silent_redirect_fails (r : Response) :
  status_code r = 302 \/ status_code r = 303 ->
  any_in error_indicators (lower (text r)) = false ->
  any_in success_indicators (lower (text r)) = false ->
  _check_submission_success r = false.
Proof.
  intros Hs He Hk. unfold _check_submission_success. cbv zeta.
  rewrite He, Hk. destruct Hs as [-> | ->]; reflexivity.
Qed.

Lemma C10_witness :
  _check_submission_success (mkResponse 302 "Redirecting to home page") = false.
Proof.
  apply C10_silent_redirect_fails.
  - left. reflexivity.
  - vm_compute. reflexivity.
  - vm_compute. reflexivity.
Defined.

Import Examples.

Local Open Scope list_scope.

(** ** Form locator *)

Lemma first_contact_form_skips (pre : list node) (forms : list node) :
  Forall (fun g => form_matches g = false) pre ->
  first_contact_form (pre ++ forms) = first_contact_form forms.
Proof.
  induction 1 as [|g pre Hg _ IH]; [reflexivity|].
  unfold form_matches in Hg. apply orb_false_elim in Hg as [Ha Hi].
  simpl. rewrite Ha, Hi. exact IH.
Qed.

Lemma first_contact_form_hit (f : node) (forms : list node) :
  form_matches f = true -> first_contact_form (f :: forms) = Some f.
Proof.
  unfold form_matches. intros H. simpl.
  destruct (form_attr_match f); [reflexivity|].
  simpl in H. rewrite H. reflexivity.
Qed.

Lemma first_contact_form_none (forms : list node) :
  Forall (fun g => form_matches g = false) forms ->
  first_contact_form forms = None.
Proof.
  intros H. rewrite <- (app_nil_r forms).
  rewrite (first_contact_form_skips _ _ H). reflexivity.
Qed.

(** C7, as the specification states it, fails: on a page whose first form
    only holds an input named "message" and whose second form has the
    action "/contact", the second form matches by attribute, yet the
    locator returns the first one, which does not. *)
Lemma C7_counterexample :
  ~ (forall soup f,
        In f (find_all "form" soup) -> form_attr_match f = true ->
        exists g, _find_contact_form soup = Some g /\ form_attr_match g = true).
Proof.
  intros H.
  destruct (H two_forms contact_form) as (g & Hg & Hattr).
  - right. left. reflexivity.
  - reflexivity.
  - vm_compute in Hg. injection Hg as <-. vm_compute in Hattr. discriminate.
Qed.

(** C7 (amended): the locator returns the first form, in document order,
    that matches by attribute or by one of its inputs; when no form
    matches, the first form of the page; and nothing exactly when the page
    has no form. *)
Theorem C7_first_matching_form (soup : node) :
  (forall pre f post,
      find_all "form" soup = pre ++ f :: post ->
      Forall (fun g => form_matches g = false) pre ->
      form_matches f = true ->
      _find_contact_form soup = Some f)
  /\ (Forall (fun g => form_matches g = false) (find_all "form" soup) ->
      _find_contact_form soup = head (find_all "form" soup))
  /\ (_find_contact_form soup = None <-> find_all "form" soup = []).
Proof.
  unfold _find_contact_form. cbv zeta. repeat split.
  - intros pre f post E Hpre Hf. rewrite E.
    rewrite (first_contact_form_skips _ _ Hpre).
    rewrite (first_contact_form_hit _ _ Hf). reflexivity.
  - intros H. rewrite (first_contact_form_none _ H). reflexivity.
  - destruct (find_all "form" soup) as [|f forms]; [reflexivity|].
    simpl. destruct (form_attr_match f); [discriminate|].
    destruct (form_inputs_match f); [discriminate|].
    destruct (first_contact_form forms); discriminate.
  - intros ->. reflexivity.
Qed.

Lemma C7_witness :
  _find_contact_form two_forms = Some newsletter_form.
Proof.
  apply (proj1 (C7_first_matching_form two_forms) [] newsletter_form [contact_form]).
  - reflexivity.
  - constructor.
  - reflexivity.
Defined.

(** ** Field mapper *)

Lemma truthy_nonempty (s : string) : truthy s = true <-> s <> "".
Proof. destruct s; simpl; split; congruence. Qed.

(** Each loop body either leaves the map alone or writes under the
    (non-empty) name of the field it handles. *)
Lemma process_input_shape mp (m : gmap string string) x :
  process_input mp m x = m
  \/ (field_name x <> "" /\ exists v, process_input mp m x = <[field_name x := v]> m).
Proof.
  unfold process_input, field_name. cbv zeta.
  destruct (truthy (get_default "name" "" x)) eqn:T; simpl; [|now left].
  apply truthy_nonempty in T.
  repeat match goal with
         | |- context [if ?b then _ else _] => destruct b
         | |- context [match ?o with Some _ => _ | None => _ end] => destruct o
         end; eauto.
Qed.

Lemma process_textarea_shape msg (m : gmap string string) x :
  process_textarea msg m x = m
  \/ (field_name x <> "" /\ exists v, process_textarea msg m x = <[field_name x := v]> m).
Proof.
  unfold process_textarea, field_name. cbv zeta.
  destruct (truthy (get_default "name" "" x)) eqn:T; [|now left].
  apply truthy_nonempty in T. eauto.
Qed.

Lemma process_select_shape (m : gmap string string) x :
  process_select m x = m
  \/ (field_name x <> "" /\ exists v, process_select m x = <[field_name x := v]> m).
Proof.
  unfold process_select, field_name. cbv zeta.
  destruct (truthy (get_default "name" "" x)) eqn:T; [|now left].
  apply truthy_nonempty in T.
  destruct (find "option" x); eauto.
Qed.

Section Loops.

(** A loop body of that shape, folded over the fields. *)
Variable f : gmap string string -> node -> gmap string string.
Hypothesis f_shape : forall m x,
  f m x = m \/ (field_name x <> "" /\ exists v, f m x = <[field_name x := v]> m).

Lemma step_other m x k : field_name x <> k -> f m x !! k = m !! k.
Proof.
  intros Hk. destruct (f_shape m x) as [-> | (_ & v & ->)]; [reflexivity|].
  now rewrite lookup_insert_ne.
Qed.

Lemma step_empty m x : f m x !! "" = m !! "".
Proof.
  destruct (f_shape m x) as [-> | (Hne & v & ->)]; [reflexivity|].
  now rewrite lookup_insert_ne.
Qed.

Lemma step_mono m x k : is_Some (m !! k) -> is_Some (f m x !! k).
Proof.
  intros Hs. destruct (f_shape m x) as [-> | (_ & v & ->)]; [exact Hs|].
  rewrite lookup_insert_is_Some. destruct (decide (field_name x = k)); auto.
Qed.

Lemma loop_other l m k :
  Forall (fun y => field_name y <> k) l -> foldl f m l !! k = m !! k.
Proof.
  intros H. revert m. induction H as [|y l Hy _ IH]; intros m; [reflexivity|].
  simpl. rewrite IH. now apply step_other.
Qed.

Lemma loop_empty l m : foldl f m l !! "" = m !! "".
Proof.
  revert m. induction l as [|y l IH]; intros m; [reflexivity|].
  simpl. rewrite IH. apply step_empty.
Qed.

Lemma loop_mono l m k : is_Some (m !! k) -> is_Some (foldl f m l !! k).
Proof.
  revert m. induction l as [|y l IH]; intros m Hs; [exact Hs|].
  simpl. apply IH. now apply step_mono.
Qed.

End Loops.

(** The entry of an input that nothing later overwrites is the one its
    own loop iteration leaves. *)
Lemma prepare_lookup_input form msg site pre x post :
  find_all "input" form = pre ++ x :: post ->
  unshadowed form x post ->
  _prepare_form_data form msg site !! field_name x
  = process_input (field_mappings msg)
      (foldl (process_input (field_mappings msg)) ∅ pre) x !! field_name x.
Proof.
  intros E (Hpost & Hta & Hsel). unfold _prepare_form_data. cbv zeta.
  rewrite (loop_other _ process_select_shape _ _ _ Hsel).
  rewrite (loop_other _ (process_textarea_shape msg) _ _ _ Hta).
  rewrite E, foldl_app. simpl.
  apply (loop_other _ (process_input_shape (field_mappings msg)) _ _ _ Hpost).
Qed.

(** Once written, a key stays in the map. *)
Lemma prepare_keeps_input_key form msg site pre x post :
  find_all "input" form = pre ++ x :: post ->
  is_Some (process_input (field_mappings msg)
             (foldl (process_input (field_mappings msg)) ∅ pre) x !! field_name x) ->
  is_Some (_prepare_form_data form msg site !! field_name x).
Proof.
  intros E Hs. unfold _prepare_form_data. cbv zeta.
  apply (loop_mono _ process_select_shape).
  apply (loop_mono _ (process_textarea_shape msg)).
  rewrite E, foldl_app. simpl.
  now apply (loop_mono _ (process_input_shape (field_mappings msg))).
Qed.

(** What one iteration writes for a named hidden input. *)
Lemma process_input_hidden mp (m : gmap string string) h :
  field_type h = "hidden" -> field_name h <> "" ->
  process_input mp m h = <[field_name h := get_default "value" "" h]> m.
Proof.
  unfold field_type, field_name, process_input. cbv zeta.
  intros -> Hn. apply truthy_nonempty in Hn. rewrite Hn. reflexivity.
Qed.

(** What one iteration writes for a named checkbox: the [checked]
    attribute plays no part. *)
Lemma process_input_checkbox mp (m : gmap string string) c :
  field_type c = "checkbox" -> field_name c <> "" ->
  process_input mp m c = <[field_name c := get_default "value" "on" c]> m.
Proof.
  unfold field_type, field_name, process_input. cbv zeta.
  intros -> Hn. apply truthy_nonempty in Hn. rewrite Hn. simpl.
  rewrite orb_true_r. reflexivity.
Qed.

(** The value chosen for a field whose name mentions "email": the key
    [name] of the mapping is tried first. *)
Lemma get_field_value_email msg field :
  py_in "email" (lower field) = true ->
  _get_field_value field (field_mappings msg)
  = Some (if py_in "name" (lower field)
          then "John Smith" else "john.smith@example.com").
Proof.
  intros He. unfold _get_field_value, field_mappings. cbv zeta. simpl.
  destruct (py_in "name" (lower field)); [reflexivity|].
  rewrite He. reflexivity.
Qed.

Lemma process_input_email msg (m : gmap string string) x :
  str_in_list (field_type x) ["text"; "email"; "tel"] = true ->
  py_in "email" (lower (field_name x)) = true ->
  process_input (field_mappings msg) m x
  = <[field_name x := if py_in "name" (lower (field_name x))
                      then "John Smith" else "john.smith@example.com"]> m.
Proof.
  unfold field_type, field_name, process_input. cbv zeta.
  intros Ht He.
  destruct (truthy (get_default "name" "" x)) eqn:T.
  - cbn [negb]. rewrite Ht, (get_field_value_email msg _ He).
    destruct (py_in "name" (lower (get_default "name" "" x))); reflexivity.
  - destruct (get_default "name" "" x); [discriminate He | discriminate T].
Qed.

(** A text-like input whose lowercased name contains "email" receives
    the canned email address only when the name does not contain "name"
    as well: otherwise the key [name], tried first, gives the Name value.
    (The entry is the one found in the map unless a later field of the
    same name overwrites it.) *)
Lemma email_value_unless_name (form : node) (msg : OutreachMessage)
    (site : BusinessSite) (pre : list node) (x : node) (post : list node) :
  find_all "input" form = pre ++ x :: post ->
  unshadowed form x post ->
  str_in_list (field_type x) ["text"; "email"; "tel"] = true ->
  py_in "email" (lower (field_name x)) = true ->
  _prepare_form_data form msg site !! field_name x
  = Some (if py_in "name" (lower (field_name x))
          then "John Smith" else "john.smith@example.com").
Proof.
  intros E Hu Ht He.
  rewrite (prepare_lookup_input form msg site pre x post E Hu).
  rewrite (process_input_email msg _ x Ht He).
  apply lookup_insert_eq.
Qed.

(** C2 at the failing input: the text input named [customer_email_name],
    alone in its form, is sent with the Name value "John Smith" and not
    with the email address, the key [name] of the mapping being tried
    before the key [email]. *)
Theorem C2_email_field_gets_name_value :
  _get_field_value "customer_email_name" (field_mappings msg0) = Some "John Smith"
  /\ _prepare_form_data email_name_form msg0 site0 !! "customer_email_name"
     = Some "John Smith"
  /\ _prepare_form_data email_name_form msg0 site0 !! "customer_email_name"
     <> Some "john.smith@example.com".
Proof.
  assert (E : _prepare_form_data email_name_form msg0 site0
              !! "customer_email_name" = Some "John Smith").
  { apply (email_value_unless_name email_name_form msg0 site0 []
             email_name_input []).
    - reflexivity.
    - repeat split; constructor.
    - reflexivity.
    - reflexivity. }
  split; [|split].
  - apply get_field_value_email. reflexivity.
  - exact E.
  - rewrite E. discriminate.
Qed.

(** C6, as the specification states it, fails: a checkbox without a
    [checked] attribute is sent all the same, with the value "on". *)
Lemma C6_counterexample :
  ~ (forall form msg site c,
        In c (find_all "input" form) ->
        field_type c = "checkbox" ->
        Bs4.get "checked" c = None ->
        _prepare_form_data form msg site !! field_name c = None).
Proof.
  intros H.
  specialize (H unchecked_form msg0 site0 unchecked_box).
  assert (E : _prepare_form_data unchecked_form msg0 site0
              !! field_name unchecked_box = Some "on")
    by (vm_compute; reflexivity).
  rewrite E in H.
  assert (Some "on" = None) as X.
  { apply H; [left; reflexivity | reflexivity | reflexivity]. }
  discriminate X.
Qed.

(** C6 (amended): every named checkbox of the form is in the submission
    map, whether or not its [checked] attribute is present; unless a
    later field of the same name overwrites it, its entry is its [value]
    attribute, or "on" when it has none. *)
Theorem C6_checkbox_always_sent (form : node) (msg : OutreachMessage)
    (site : BusinessSite) (pre : list node) (c : node) (post : list node) :
  find_all "input" form = pre ++ c :: post ->
  field_type c = "checkbox" ->
  field_name c <> "" ->
  is_Some (_prepare_form_data form msg site !! field_name c)
  /\ (unshadowed form c post ->
      _prepare_form_data form msg site !! field_name c
      = Some (get_default "value" "on" c)).
Proof.
  intros E Ht Hn. split.
  - apply (prepare_keeps_input_key form msg site pre c post E).
    rewrite (process_input_checkbox _ _ c Ht Hn), lookup_insert_eq. eauto.
  - intros Hu.
    rewrite (prepare_lookup_input form msg site pre c post E Hu).
    rewrite (process_input_checkbox _ _ c Ht Hn). apply lookup_insert_eq.
Qed.

Lemma C6_witness :
  is_Some (_prepare_form_data unchecked_form msg0 site0 !! "newsletter").
Proof.
  apply (C6_checkbox_always_sent unchecked_form msg0 site0 [] unchecked_box []).
  - reflexivity.
  - reflexivity.
  - discriminate.
Defined.

(** C8, as the specification states it, fails: of two hidden inputs that
    share a name only the last one's value reaches the map. *)
Lemma C8_counterexample :
  ~ (forall form msg site h,
        In h (find_all "input" form) ->
        field_type h = "hidden" ->
        field_name h <> "" ->
        _prepare_form_data form msg site !! field_name h
        = Some (get_default "value" "" h)).
Proof.
  intros H.
  specialize (H two_tokens_form msg0 site0 first_token).
  assert (E : _prepare_form_data two_tokens_form msg0 site0
              !! field_name first_token = Some "second")
    by (vm_compute; reflexivity).
  rewrite E in H.
  assert (Some "second" = Some (get_default "value" "" first_token)) as X.
  { apply H; [left; reflexivity | reflexivity | discriminate]. }
  vm_compute in X. discriminate X.
Qed.

(** C8 (amended): a named hidden input that no later field of the same
    name overwrites is sent with exactly its [value] attribute, and with
    the empty string when it has none. *)
Theorem C8_hidden_verbatim (form : node) (msg : OutreachMessage)
    (site : BusinessSite) (pre : list node) (h : node) (post : list node) :
  find_all "input" form = pre ++ h :: post ->
  field_type h = "hidden" ->
  field_name h <> "" ->
  unshadowed form h post ->
  _prepare_form_data form msg site !! field_name h
  = Some (match Bs4.get "value" h with Some v => v | None => "" end).
Proof.
  intros E Ht Hn Hu.
  rewrite (prepare_lookup_input form msg site pre h post E Hu).
  rewrite (process_input_hidden _ _ h Ht Hn). apply lookup_insert_eq.
Qed.

Lemma C8_witness :
  _prepare_form_data csrf_form msg0 site0 !! "csrf" = Some "A b/+=9".
Proof.
  apply (C8_hidden_verbatim csrf_form msg0 site0 [] csrf_input
           [input "text" "full_name" []; Tag "input" [("type", "text")] None []]).
  - reflexivity.
  - reflexivity.
  - discriminate.
  - repeat split; repeat constructor; discriminate.
Defined.

(** C9: the submission map has no empty key, and a descriptor without a
    name (missing or empty) leaves the map as it was. *)
Theorem C9_no_empty_key (form : node) (msg : OutreachMessage)
    (site : BusinessSite) :
  _prepare_form_data form msg site !! "" = None
  /\ (forall (m : gmap string string) x,
         field_name x = "" ->
         process_input (field_mappings msg) m x = m
         /\ process_textarea msg m x = m
         /\ process_select m x = m).
Proof.
  split.
  - unfold _prepare_form_data. cbv zeta.
    rewrite (loop_empty _ process_select_shape).
    rewrite (loop_empty _ (process_textarea_shape msg)).
    rewrite (loop_empty _ (process_input_shape (field_mappings msg))).
    apply lookup_empty.
  - intros m x Hx. unfold field_name in Hx.
    unfold process_input, process_textarea, process_select. cbv zeta.
    rewrite Hx. repeat split; reflexivity.
Qed.

Lemma C9_witness :
  _prepare_form_data csrf_form msg0 site0 !! "" = None.
Proof. apply (proj1 (C9_no_empty_key csrf_form msg0 site0)). Defined.

(** ** CAPTCHA polling *)

Import Polling.

Section Loop.

Variable answers : nat -> verdict.

(** Each poll is preceded by a ten-second sleep, and a loop of [n]
    rounds polls at most [n] times. *)
Lemma wait_accounting (n : nat) (r : run) :
  slept (snd (wait_for_solution answers n r)) - slept r
  = 10 * (Z.of_nat (polls (snd (wait_for_solution answers n r)))
          - Z.of_nat (polls r))
  /\ (polls r <= polls (snd (wait_for_solution answers n r)) <= polls r + n)%nat.
Proof.
  revert r. induction n as [|n IH]; intros r.
  - simpl. split; lia.
  - simpl. destruct (answers (polls r)).
    + simpl. split; lia.
    + specialize (IH (polled (sleep 10 r))). simpl in IH.
      destruct IH as [IH1 IH2]. split; lia.
    + simpl. split; lia.
    + simpl. split; lia.
Qed.

(** "Not ready" answers are skipped one round at a time. *)
Lemma wait_skips_not_ready (k n : nat) (r : run) :
  (forall i, (i < k)%nat -> answers (polls r + i) = NotReady) ->
  wait_for_solution answers (k + n) r
  = wait_for_solution answers n
      (mkRun (polls r + k) (slept r + 10 * Z.of_nat k) (log r)).
Proof.
  revert r. induction k as [|k IH]; intros r H.
  - destruct r as [p s l]. simpl. f_equal. f_equal; lia.
  - assert (H0 := H 0%nat ltac:(lia)).
    replace (polls r + 0)%nat with (polls r) in H0 by lia.
    change (S k + n)%nat with (S (k + n)). simpl. rewrite H0.
    rewrite IH.
    + simpl. f_equal. f_equal; lia.
    + intros i Hi. specialize (H (S i) ltac:(lia)).
      match goal with
      | |- answers ?x = _ => replace x with (polls r + S i)%nat by (simpl; lia)
      end.
      exact H.
Qed.

Lemma wait_contract (bound : nat) :
  loop_contract bound answers (wait_for_solution answers bound start).
Proof.
  unfold loop_contract.
  destruct (wait_accounting bound start) as [Hacc Hpolls].
  simpl in Hacc, Hpolls.
  split; [lia|]. split; [lia|]. split; [|split].
  - intros k token Hk Hnr Hans.
    replace bound with (k + S (bound - S k))%nat by lia.
    rewrite wait_skips_not_ready by (intros i Hi; apply Hnr; exact Hi).
    simpl. rewrite Hans. unfold logged, polled, sleep. simpl.
    f_equal. f_equal. lia.
  - intros k Hk Hnr Hhard.
    replace bound with (k + S (bound - S k))%nat by lia.
    rewrite wait_skips_not_ready by (intros i Hi; apply Hnr; exact Hi).
    simpl. destruct Hhard as [-> | ->]; simpl;
      (repeat split; intros [X|[]]; discriminate X).
  - intros Hnr.
    replace bound with (bound + 0)%nat at 1 by lia.
    rewrite wait_skips_not_ready by (intros i Hi; apply Hnr; exact Hi).
    simpl. reflexivity.
Qed.

End Loop.

Lemma solve_image_captcha_contract service image_data image_job :
  accepted service (ImageJob image_data) image_job ->
  loop_contract 30 (image_answers service image_job)
                (solve_image_captcha service image_data).
Proof.
  destruct service as [svc | svc]; intros (ri & Ei & Hi & Idi);
    unfold solve_image_captcha, _solve_2captcha_image, solve_2captcha,
      _solve_anticaptcha_image, solve_anticaptcha;
    rewrite Ei, Hi, Idi; cbn [negb]; apply wait_contract.
Qed.

Lemma solve_recaptcha_contract service site_key page_url recaptcha_job :
  accepted service (RecaptchaJob site_key page_url) recaptcha_job ->
  loop_contract 60 (recaptcha_answers service recaptcha_job)
                (solve_recaptcha service site_key page_url).
Proof.
  destruct service as [svc | svc]; intros (rr & Er & Hr & Idr);
    unfold solve_recaptcha, _solve_2captcha_recaptcha, solve_2captcha,
      _solve_anticaptcha_recaptcha, solve_anticaptcha;
    rewrite Er, Hr, Idr; cbn [negb]; apply wait_contract.
Qed.

Lemma is_int_spec (x : option Z) (n : Z) : is_int x n = true <-> x = Some n.
Proof.
  destruct x as [z|]; simpl; [|split; discriminate].
  rewrite Z.eqb_eq. split; [intros ->; reflexivity | intros [= ->]; reflexivity].
Qed.

Lemma opt_is_spec (x : option string) (s : string) :
  opt_is x s = true <-> x = Some s.
Proof.
  destruct x as [y|]; simpl; [|split; discriminate].
  rewrite String.eqb_eq. split; [intros ->; reflexivity | intros [= ->]; reflexivity].
Qed.

(** The loop bodies read a reply as ready, or as "not ready", exactly
    when the service said so. *)
Lemma poll_2captcha_ready (x : reply result_2captcha) (token : string) :
  poll_2captcha x = Ready token
  <-> exists result, x = Json result /\ status result = Some 1
                     /\ request result = Some token.
Proof.
  split.
  - destruct x as [|result]; simpl; [discriminate|].
    destruct (is_int (status result) 1) eqn:Hs.
    + apply is_int_spec in Hs.
      destruct (request result) as [solution|] eqn:Hr; [|discriminate].
      intros [= ->]. exists result. auto.
    + destruct (opt_is (request result) "CAPCHA_NOT_READY"); discriminate.
  - intros (result & -> & Hs & Hr). simpl.
    rewrite (proj2 (is_int_spec _ _) Hs), Hr. reflexivity.
Qed.

Lemma poll_2captcha_not_ready (x : reply result_2captcha) :
  poll_2captcha x = NotReady
  <-> exists result, x = Json result /\ status result <> Some 1
                     /\ request result = Some "CAPCHA_NOT_READY".
Proof.
  split.
  - destruct x as [|result]; simpl; [discriminate|].
    destruct (is_int (status result) 1) eqn:Hs.
    + destruct (request result); discriminate.
    + destruct (opt_is (request result) "CAPCHA_NOT_READY") eqn:Hr; [|discriminate].
      intros _. exists result. split; [reflexivity|]. split.
      * intros E. apply is_int_spec in E. congruence.
      * apply opt_is_spec. exact Hr.
  - intros (result & -> & Hs & Hr). simpl.
    destruct (is_int (status result) 1) eqn:E.
    + apply is_int_spec in E. contradiction.
    + rewrite (proj2 (opt_is_spec _ _) Hr). reflexivity.
Qed.

Lemma poll_anticaptcha_ready (field : result_anticaptcha -> option string)
    (x : reply result_anticaptcha) (token : string) :
  poll_anticaptcha field x = Ready token
  <-> exists result, x = Json result /\ task_status result = Some "ready"
                     /\ field result = Some token.
Proof.
  split.
  - destruct x as [|result]; simpl; [discriminate|].
    destruct (opt_is (task_status result) "ready") eqn:Hs.
    + apply opt_is_spec in Hs.
      destruct (field result) as [solution|] eqn:Hf; [|discriminate].
      intros [= ->]. exists result. auto.
    + destruct (opt_is (task_status result) "processing"); discriminate.
  - intros (result & -> & Hs & Hf). simpl.
    rewrite (proj2 (opt_is_spec _ _) Hs), Hf. reflexivity.
Qed.

Lemma poll_anticaptcha_not_ready (field : result_anticaptcha -> option string)
    (x : reply result_anticaptcha) :
  poll_anticaptcha field x = NotReady
  <-> exists result, x = Json result /\ task_status result = Some "processing".
Proof.
  split.
  - destruct x as [|result]; simpl; [discriminate|].
    destruct (opt_is (task_status result) "ready") eqn:Hs.
    + destruct (field result); discriminate.
    + destruct (opt_is (task_status result) "processing") eqn:Hp; [|discriminate].
      intros _. exists result. split; [reflexivity|]. apply opt_is_spec. exact Hp.
  - intros (result & -> & Hs). simpl. rewrite Hs. reflexivity.
Qed.

Lemma reading_ready (service : provider) (k : kind) (id : string) (i : nat)
    (token : string) :
  readings service k id i = Ready token <-> reply_ready service k id i token.
Proof.
  destruct service as [svc | svc], k; simpl;
    first [apply poll_2captcha_ready | apply poll_anticaptcha_ready].
Qed.

Lemma reading_not_ready (service : provider) (k : kind) (id : string) (i : nat) :
  readings service k id i = NotReady <-> reply_not_ready service id i.
Proof.
  destruct service as [svc | svc], k; simpl;
    first [apply poll_2captcha_not_ready | apply poll_anticaptcha_not_ready].
Qed.

(** The loop's contract, carried over to the service's replies. *)
Lemma contract_of_readings (bound : nat) (service : provider) (k : kind)
    (id : string) (out : option string * run) :
  loop_contract bound (readings service k id) out ->
  contract bound (reply_ready service k id) (reply_not_ready service id) out.
Proof.
  intros (Hs & Hp & Hready & Hhard & Htimeout).
  split; [exact Hs|]. split; [exact Hp|]. split; [|split].
  - intros n token Hn Hnr Hr. apply (Hready n token Hn).
    + intros i Hi. apply reading_not_ready. apply Hnr. exact Hi.
    + apply reading_ready. exact Hr.
  - intros n Hn Hnr Hnot Hno. apply (Hhard n Hn).
    + intros i Hi. apply reading_not_ready. apply Hnr. exact Hi.
    + destruct (readings service k id n) as [solution| | |] eqn:E.
      * exfalso. apply (Hno solution). apply reading_ready. exact E.
      * exfalso. apply Hnot. apply (reading_not_ready service k). exact E.
      * left. reflexivity.
      * right. reflexivity.
  - intros Hnr. apply Htimeout.
    intros i Hi. apply reading_not_ready. apply Hnr. exact Hi.
Qed.

(** What the two entry points do with a job, by cases on the answer to
    the submission. *)
Lemma solve_cases (service : provider) (j : job) (bound : nat)
    (answers : string -> nat -> verdict) (out : option string * run) :
  match service with
  | Service2Captcha svc =>
      out = solve_2captcha svc j bound
      /\ answers = (fun id i => poll_2captcha (res_php svc id i))
  | ServiceAntiCaptcha svc =>
      exists field,
        out = solve_anticaptcha svc j field bound
        /\ answers = (fun id i => poll_anticaptcha field (getTaskResult svc id i))
  end ->
  (exists id, accepted service j id
              /\ out = wait_for_solution (answers id) bound start)
  \/ ((forall id, ~ accepted service j id)
      /\ fst out = None /\ polls (snd out) = 0%nat /\ slept (snd out) = 0).
Proof.
  destruct service as [svc | svc].
  - intros [-> ->]. unfold solve_2captcha, accepted.
    destruct (in_php svc j) as [|result] eqn:E.
    + right. split; [intros id (x & X & _); discriminate X | auto].
    + destruct (is_int (status result) 1) eqn:Hs; simpl.
      * destruct (request result) as [id|] eqn:Hr.
        -- left. exists id. split; [exists result; auto | reflexivity].
        -- right. split; [|auto].
           intros id (x & X & _ & Hx). injection X as <-. congruence.
      * right. split; [|auto].
        intros id (x & X & Hx & _). injection X as <-. congruence.
  - intros (field & -> & ->). unfold solve_anticaptcha, accepted.
    destruct (createTask svc j) as [|result] eqn:E.
    + right. split; [intros id (x & X & _); discriminate X | auto].
    + destruct (is_int (errorId result) 0) eqn:Hs; simpl.
      * destruct (taskId result) as [id|] eqn:Hr.
        -- left. exists id. split; [exists result; auto | reflexivity].
        -- right. split; [|auto].
           intros id (x & X & _ & Hx). injection X as <-. congruence.
      * right. split; [|auto].
        intros id (x & X & Hx & _). injection X as <-. congruence.
Qed.

Lemma solve_image_cases (service : provider) (image_data : string) :
  (exists id, accepted service (ImageJob image_data) id
              /\ solve_image_captcha service image_data
                 = wait_for_solution (image_answers service id) 30 start)
  \/ ((forall id, ~ accepted service (ImageJob image_data) id)
      /\ fst (solve_image_captcha service image_data) = None
      /\ polls (snd (solve_image_captcha service image_data)) = 0%nat
      /\ slept (snd (solve_image_captcha service image_data)) = 0).
Proof.
  apply (solve_cases service (ImageJob image_data) 30 (image_answers service)).
  destruct service as [svc | svc]; [split; reflexivity|].
  exists solution_text. split; reflexivity.
Qed.

Lemma solve_recaptcha_cases (service : provider) (key page_url : string) :
  (exists id, accepted service (RecaptchaJob key page_url) id
              /\ solve_recaptcha service key page_url
                 = wait_for_solution (recaptcha_answers service id) 60 start)
  \/ ((forall id, ~ accepted service (RecaptchaJob key page_url) id)
      /\ fst (solve_recaptcha service key page_url) = None
      /\ polls (snd (solve_recaptcha service key page_url)) = 0%nat
      /\ slept (snd (solve_recaptcha service key page_url)) = 0).
Proof.
  apply (solve_cases service (RecaptchaJob key page_url) 60
           (recaptcha_answers service)).
  destruct service as [svc | svc]; [split; reflexivity|].
  exists solution_gRecaptchaResponse. split; reflexivity.
Qed.

(** C4: every run sleeps ten seconds before each poll and polls at most
    30 times for an image and 60 times for a ReCaptcha; and once the job
    is accepted, with either provider, the run goes on at a "not ready"
    reply, returns the token carried by the first ready reply, fails at
    the first reply that is neither, and fails by time-out after exactly
    30 (resp. 60) polls when every reply is "not ready".  The replies are
    the service's own: status 1 with the token under [request] and
    CAPCHA_NOT_READY for 2Captcha, status "ready" with the token under
    the solution key and "processing" for Anti-Captcha. *)
Theorem C4_bounded_polling (service : provider)
    (image_data site_key page_url : string) :
  (slept (snd (solve_image_captcha service image_data))
   = 10 * Z.of_nat (polls (snd (solve_image_captcha service image_data)))
   /\ (polls (snd (solve_image_captcha service image_data)) <= 30)%nat
   /\ slept (snd (solve_recaptcha service site_key page_url))
      = 10 * Z.of_nat (polls (snd (solve_recaptcha service site_key page_url)))
   /\ (polls (snd (solve_recaptcha service site_key page_url)) <= 60)%nat)
  /\ (forall image_job,
        accepted service (ImageJob image_data) image_job ->
        contract 30 (reply_ready service Image image_job)
                 (reply_not_ready service image_job)
                 (solve_image_captcha service image_data))
  /\ (forall recaptcha_job,
        accepted service (RecaptchaJob site_key page_url) recaptcha_job ->
        contract 60 (reply_ready service Recaptcha recaptcha_job)
                 (reply_not_ready service recaptcha_job)
                 (solve_recaptcha service site_key page_url)).
Proof.
  split; [|split].
  - destruct (solve_image_cases service image_data)
      as [(id & Ha & _) | (_ & _ & Hp & Hs)];
      destruct (solve_recaptcha_cases service site_key page_url)
        as [(id' & Ha' & _) | (_ & _ & Hp' & Hs')].
    + destruct (solve_image_captcha_contract _ _ _ Ha) as (H1 & H2 & _).
      destruct (solve_recaptcha_contract _ _ _ _ Ha') as (H3 & H4 & _). auto.
    + destruct (solve_image_captcha_contract _ _ _ Ha) as (H1 & H2 & _).
      rewrite Hp', Hs'. repeat apply conj; auto; lia.
    + destruct (solve_recaptcha_contract _ _ _ _ Ha') as (H3 & H4 & _).
      rewrite Hp, Hs. repeat apply conj; auto; lia.
    + rewrite Hp, Hs, Hp', Hs'. repeat apply conj; lia.
  - intros image_job Ha.
    apply (contract_of_readings 30 service Image).
    apply solve_image_captcha_contract. exact Ha.
  - intros recaptcha_job Ha.
    apply (contract_of_readings 60 service Recaptcha).
    apply solve_recaptcha_contract. exact Ha.
Qed.

Lemma C4_witness :
  solve_image_captcha never_ready "png" = (None, mkRun 30 300 [TimedOut])
  /\ solve_recaptcha ready_at_third "6Lc-key" "https://shop.example/contact"
     = (Some "03AGdBq2", mkRun 3 30 [Solved])
  /\ fst (solve_image_captcha unsolvable_at_second "png") = None
  /\ polls (snd (solve_image_captcha unsolvable_at_second "png")) = 2%nat.
Proof.
  split; [|split].
  - destruct (C4_bounded_polling never_ready "png" "k" "u")
      as (_ & Himage & _).
    destruct (Himage "job-1") as (_ & _ & _ & _ & Htimeout).
    + eexists. repeat split.
    + apply Htimeout. intros i _. eexists. repeat split. discriminate.
  - destruct (C4_bounded_polling ready_at_third "png" "6Lc-key"
                "https://shop.example/contact")
      as (_ & _ & Hrecaptcha).
    destruct (Hrecaptcha "task-1") as (_ & _ & Hready & _).
    + eexists. repeat split.
    + apply (Hready 2%nat "03AGdBq2").
      * lia.
      * intros i Hi. destruct i as [|[|i]]; [| | lia]; eexists; repeat split.
      * eexists. repeat split.
  - destruct (C4_bounded_polling unsolvable_at_second "png" "k" "u")
      as (_ & Himage & _).
    destruct (Himage "job-2") as (_ & _ & _ & Hhard & _).
    + eexists. repeat split.
    + destruct (Hhard 1%nat) as (Hnone & Hpolls & _).
      * lia.
      * intros i Hi. destruct i as [|i]; [|lia]. eexists. repeat split. discriminate.
      * intros (result & E & _ & Hr). injection E as <-. discriminate Hr.
      * intros token (result & E & Hs & _). injection E as <-. discriminate Hs.
      * split; assumption.
Defined.

(** ** Static submission path *)

Import Worlds.

(** Handling a CAPTCHA sends no POST. *)
Lemma handle_captcha_no_post w info form_url soup tr :
  existsb is_post tr = false ->
  existsb is_post (snd (_handle_captcha w info form_url soup tr)) = false.
Proof.
  intros Htr.
  assert (Hget : forall u, existsb is_post (tr ++ [GET u]) = false).
  { intros u. rewrite existsb_app, Htr. reflexivity. }
  unfold _handle_captcha, try_except, handle_captcha_body, bind, lift, Static.get, ret.
  repeat match goal with
         | |- context [if ?b then _ else _] => destruct b
         | |- context [match ?o with Some _ => _ | None => _ end] => destruct o
         | |- context [match ?o with inl _ => _ | inr _ => _ end] => destruct o
         end; simpl; auto.
Qed.

(** Handling a CAPTCHA never raises. *)
Lemma handle_captcha_returns w info form_url soup tr :
  exists o, fst (_handle_captcha w info form_url soup tr) = inr o.
Proof.
  unfold _handle_captcha, try_except, handle_captcha_body, bind, lift, Static.get, ret.
  repeat match goal with
         | |- context [if ?b then _ else _] => destruct b
         | |- context [match ?o with Some _ => _ | None => _ end] => destruct o
         | |- context [match ?o with inl _ => _ | inr _ => _ end] => destruct o
         end; simpl; eauto.
Qed.

(** The ways of getting no solution: the solver fails or times out
    (its entry points return [None]), or the kind (hCaptcha, text) is one
    the handler has no branch for. *)
Lemma solver_failure_gives_no_solution w info form_url soup tr :
  (forall k u, fst (solve_recaptcha (captcha_solver w) k u) = None) ->
  (forall d, fst (solve_image_captcha (captcha_solver w) d) = None) ->
  fst (_handle_captcha w info form_url soup tr) = inr None.
Proof.
  intros Hr Hi.
  unfold _handle_captcha, try_except, handle_captcha_body, bind, lift, Static.get, ret.
  repeat match goal with
         | |- context [solve_recaptcha ?p ?k ?u] => rewrite (Hr k u)
         | |- context [solve_image_captcha ?p ?d] => rewrite (Hi d)
         | |- context [if ?b then _ else _] => destruct b
         | |- context [match ?o with Some _ => _ | None => _ end] => destruct o
         | |- context [match ?o with inl _ => _ | inr _ => _ end] => destruct o
         end; simpl; auto.
Qed.

Lemma unsolvable_kind_gives_no_solution w info form_url soup tr :
  opt_is (type info) "recaptcha" = false ->
  opt_is (type info) "image" = false ->
  _handle_captcha w info form_url soup tr = (inr None, tr).
Proof.
  intros H1 H2.
  unfold _handle_captcha, try_except, handle_captcha_body.
  rewrite H1, H2. reflexivity.
Qed.

(** A ReCaptcha job that times out leaves the challenge unsolved. *)
Lemma recaptcha_timeout_gives_no_solution w info form_url soup tr key job_id :
  type info = Some "recaptcha" ->
  site_key info = Some key ->
  accepted (captcha_solver w) (RecaptchaJob key form_url) job_id ->
  (forall i, (i < 60)%nat ->
             recaptcha_answers (captcha_solver w) job_id i = NotReady) ->
  _handle_captcha w info form_url soup tr = (inr None, tr).
Proof.
  intros Ht Hk Hacc Hnr.
  destruct (solve_recaptcha_contract _ _ _ _ Hacc) as (_ & _ & _ & _ & Htimeout).
  unfold _handle_captcha, try_except, handle_captcha_body.
  rewrite Ht, Hk, (Htimeout Hnr). simpl.
  destruct (truthy key); reflexivity.
Qed.

(** C3: when a challenge is detected and no solution is obtained, the
    static path returns a form that is not submitted, is flagged as
    having a CAPTCHA and carries the CAPTCHA failure message, and the
    requests made contain no POST. *)
Theorem C3_unsolved_captcha_blocks_post (w : World) (site : BusinessSite)
    (msg : OutreachMessage) (form_url : string) (response : Response) :
  contact_form_url site = Some form_url ->
  challenge_detected w form_url response ->
  no_solution w form_url response ->
  exists requests,
    submit_contact_form w site msg [] =
      (inr (mkContactForm form_url ∅ true
              (type (detect_captcha_type (BeautifulSoup w (text response))))
              false (Some "Failed to solve CAPTCHA")),
       requests)
    /\ existsb is_post requests = false.
Proof.
  intros Hurl (Hget & Hstatus & Hform & Hcaptcha) Hnone.
  unfold no_solution in Hnone. cbv zeta in Hnone.
  assert (Hpost := handle_captcha_no_post w
            (detect_captcha_type (BeautifulSoup w (text response)))
            form_url (BeautifulSoup w (text response)) [GET form_url] eq_refl).
  exists (snd (_handle_captcha w
            (detect_captcha_type (BeautifulSoup w (text response)))
            form_url (BeautifulSoup w (text response)) [GET form_url])).
  split; [|exact Hpost].
  unfold submit_contact_form. rewrite Hurl.
  unfold try_except, submit_body, bind, Static.get, raise_for_status.
  rewrite Hget. simpl. rewrite Hstatus. simpl.
  destruct (_find_contact_form (BeautifulSoup w (text response))) as [form|];
    [|congruence].
  simpl. rewrite Hcaptcha.
  destruct (_handle_captcha w
              (detect_captcha_type (BeautifulSoup w (text response)))
              form_url (BeautifulSoup w (text response)) [GET form_url])
    as [res tr'].
  simpl in Hnone. subst res. reflexivity.
Qed.

Lemma C3_witness :
  exists requests,
    submit_contact_form solver_down site0 msg0 [] =
      (inr (mkContactForm "https://shop.example/contact" ∅ true
              (Some "recaptcha") false (Some "Failed to solve CAPTCHA")),
       requests)
    /\ existsb is_post requests = false.
Proof.
  apply (C3_unsolved_captcha_blocks_post solver_down site0 msg0
           "https://shop.example/contact" (mkResponse 200 "<html>")).
  - reflexivity.
  - unfold challenge_detected.
    split; [reflexivity | split; [reflexivity | split; [discriminate | reflexivity]]].
  - reflexivity.
Defined.

(** ** Rate limiter *)

Import RateLimiter.

(** [wait] stamps the global timestamp with the time at which it hands
    control back, after any sleep. *)
Lemma wait_stamps_return_time (s s' : state) :
  wait s = Some s' -> last_global_call s' = clock s'.
Proof.
  unfold wait. cbv zeta.
  destruct (min_interval (global_qps s)); [|discriminate].
  intros [= <-]. reflexivity.
Qed.

(** [wait_for_domain] stamps the domain with the time at which it was
    entered, before any sleep. *)
Lemma wait_for_domain_stamps_entry_time (domain : string) (s s' : state) :
  wait_for_domain domain s = Some s' ->
  domain_calls s' !! domain = Some (clock s).
Proof.
  unfold wait_for_domain. cbv zeta.
  destruct (min_interval (per_domain_qps s)); [|discriminate].
  intros [= <-]. simpl. apply lookup_insert_eq.
Qed.

(** C5 at the failing input: asked again for domain "a" a tenth of a
    second after its last request, [wait_for_domain] sleeps until
    t = 100.5 s and returns, but records t = 100.1 s, the time at which
    the call started waiting. *)
Theorem C5_wait_for_domain_records_stale_time :
  exists s',
    wait_for_domain "a" asked_again_early = Some s'
    /\ (clock s' == 1005 # 10)%Q
    /\ domain_calls s' !! "a" = Some (1001 # 10)%Q
    /\ (1001 # 10 < clock s')%Q.
Proof.
  eexists. split; [reflexivity|]. split; [|split].
  - vm_compute. reflexivity.
  - apply lookup_insert_eq.
  - vm_compute. reflexivity.
Qed.

(** * Further properties of the code *)

Import MorePages.

(** ** Strings, continued *)

Lemma lower_app (a b : string) : lower (a +:+ b) = lower a +:+ lower b.
Proof.
  induction a as [|c a IH]; [reflexivity|].
  rewrite app_cons. simpl. rewrite IH. reflexivity.
Qed.

Lemma py_in_embedded (e pre post : string) : py_in e (pre +:+ e +:+ post) = true.
Proof. apply py_in_spec. exists pre, post. reflexivity. Qed.

Lemma any_in_intro (keys : list string) (e s : string) :
  In e keys -> py_in e s = true -> any_in keys s = true.
Proof.
  intros Hin He. unfold any_in. apply existsb_exists. exists e. auto.
Qed.

(** A word that lowercases to a listed phrase is found in the lowercased
    text, whatever surrounds it. *)
Lemma any_in_lower_embedded (keys : list string) (e pre word post : string) :
  In e keys -> lower word = e ->
  any_in keys (lower (pre +:+ word +:+ post)) = true.
Proof.
  intros Hin Hw. apply (any_in_intro keys e); [exact Hin|].
  rewrite !lower_app, Hw. apply py_in_embedded.
Qed.

(** ** Outcome classifier, continued *)

(** X1: a body that contains an error phrase, in any letter case and
    whatever text surrounds it, is classified as a failure for every
    status code. *)
Theorem X1_error_phrase_always_fails (status : Z) (pre word post e : string) :
  In e error_indicators ->
  lower word = e ->
  _check_submission_success (mkResponse status (pre +:+ word +:+ post)) = false.
Proof.
  intros Hin Hw. unfold _check_submission_success. cbv zeta.
  destruct (negb (Z_in (status_code (mkResponse status (pre +:+ word +:+ post)))
                    [200; 201; 302; 303])); [reflexivity|].
  change (text (mkResponse status (pre +:+ word +:+ post)))
    with (pre +:+ word +:+ post).
  rewrite (any_in_lower_embedded _ e pre word post Hin Hw). reflexivity.
Qed.

Lemma X1_witness :
  _check_submission_success
    (mkResponse 200 ("Thank you! " +:+ "Invalid" +:+ " phone number, message sent."))
  = false.
Proof.
  apply (X1_error_phrase_always_fails 200 "Thank you! " "Invalid"
           " phone number, message sent." "invalid").
  - right. right. left. reflexivity.
  - reflexivity.
Defined.

(** X2: for a 200 or 201 response the success phrases play no part: the
    submission counts as successful exactly when the body holds no error
    phrase. *)
Theorem X2_2xx_success_iff_no_error (r : Response) :
  status_code r = 200 \/ status_code r = 201 ->
  _check_submission_success r = negb (any_in error_indicators (lower (text r))).
Proof.
  intros Hs. unfold _check_submission_success. cbv zeta.
  destruct (any_in error_indicators (lower (text r)));
    destruct (any_in success_indicators (lower (text r)));
    destruct Hs as [-> | ->]; reflexivity.
Qed.

Lemma X2_witness :
  _check_submission_success (mkResponse 201 "<html><body>Home</body></html>")
  = negb (any_in error_indicators (lower "<html><body>Home</body></html>")).
Proof.
  apply (X2_2xx_success_iff_no_error (mkResponse 201 "<html><body>Home</body></html>")).
  right. reflexivity.
Defined.

(** ** Form locator, continued *)

Lemma first_contact_form_In (forms : list node) (f : node) :
  first_contact_form forms = Some f -> In f forms.
Proof.
  induction forms as [|g forms IH]; simpl; [discriminate|].
  destruct (form_attr_match g); [intros [= ->]; now left|].
  destruct (form_inputs_match g); [intros [= ->]; now left|].
  intros H. right. auto.
Qed.

(** X3: the form the locator returns is always one of the page's own
    [<form>] elements. *)
Theorem X3_located_form_is_on_page (soup f : node) :
  _find_contact_form soup = Some f ->
  In f (find_all "form" soup) /\ is_tag "form" f = true.
Proof.
  intros H.
  assert (Hin : In f (find_all "form" soup)).
  { unfold _find_contact_form in H. cbv zeta in H.
    destruct (first_contact_form (find_all "form" soup)) as [g|] eqn:E.
    - injection H as <-. now apply first_contact_form_In.
    - destruct (find_all "form" soup); [discriminate|].
      injection H as <-. now left. }
  split; [exact Hin|].
  unfold find_all in Hin. apply filter_In in Hin. apply Hin.
Qed.

Lemma X3_witness :
  In newsletter_form (find_all "form" two_forms)
  /\ is_tag "form" newsletter_form = true.
Proof. apply (X3_located_form_is_on_page two_forms newsletter_form). reflexivity. Defined.

(** ** Field mapper, continued *)

Lemma first_key_in_None (mp : list (string * string)) (l : string) :
  first_key_in mp l = None ->
  forall k v, In (k, v) mp -> py_in k l = false.
Proof.
  induction mp as [|[k0 v0] mp IH]; simpl; intros H k v Hin; [contradiction|].
  destruct (py_in k0 l) eqn:E; [discriminate|].
  destruct Hin as [[= <- <-] | Hin]; [exact E | eauto].
Qed.

(** X4: the value chosen for a field is that of the first mapping key,
    in the order name, email, phone, subject, message, comment, inquiry,
    content, description, details, company, website, contained in the
    lowercased field name; of the fallback tests that follow the loop
    only "tel" can still fire, and gives the phone number. *)
Theorem X4_get_field_value_first_key_then_tel (msg : OutreachMessage)
    (field : string) :
  _get_field_value field (field_mappings msg)
  = match first_key_in (field_mappings msg) (lower field) with
    | Some value => Some value
    | None => if py_in "tel" (lower field) then Some "555-123-4567" else None
    end.
Proof.
  unfold _get_field_value. cbv zeta.
  destruct (first_key_in (field_mappings msg) (lower field)) eqn:E; [reflexivity|].
  pose proof (first_key_in_None _ _ E) as Hno.
  assert (Hk : forall k, In k ["name"; "email"; "phone"; "subject"; "message";
                                "comment"; "inquiry"; "content"] ->
                         py_in k (lower field) = false).
  { intros k Hk. simpl in Hk.
    repeat (destruct Hk as [<- | Hk];
            [eapply Hno; unfold field_mappings; simpl; eauto 15|]).
    contradiction. }
  rewrite (Hk "name"), (Hk "email"), (Hk "phone"), (Hk "subject")
    by (simpl; auto 10).
  unfold any_in. simpl.
  rewrite (Hk "message"), (Hk "comment"), (Hk "inquiry"), (Hk "content")
    by (simpl; auto 10).
  simpl. destruct (py_in "tel" (lower field)); reflexivity.
Qed.

Section Origins.

Variable f : gmap string string -> node -> gmap string string.
Hypothesis f_shape : forall m x,
  f m x = m \/ (field_name x <> "" /\ exists v, f m x = <[field_name x := v]> m).

(** A key found after a loop was there before it or is the name of a
    field the loop went through. *)
Lemma loop_key_origin l m k :
  is_Some (foldl f m l !! k) ->
  is_Some (m !! k) \/ exists x, In x l /\ field_name x = k.
Proof.
  revert m. induction l as [|y l IH]; intros m H; [now left|].
  simpl in H. destruct (IH _ H) as [Hs | (x & Hx & Hk)].
  - destruct (f_shape m y) as [E | (_ & v & E)]; rewrite E in Hs.
    + now left.
    + apply lookup_insert_is_Some in Hs as [<- | [_ Hs]].
      * right. exists y. split; [now left | reflexivity].
      * now left.
  - right. exists x. split; [now right | exact Hk].
Qed.

(** Fields that leave the entry for [k] alone leave it alone together. *)
Lemma loop_silent l m k :
  (forall x m', In x l -> f m' x !! k = m' !! k) ->
  foldl f m l !! k = m !! k.
Proof.
  revert m. induction l as [|y l IH]; intros m H; [reflexivity|].
  simpl. rewrite IH.
  - apply H. now left.
  - intros x m' Hx. apply H. now right.
Qed.

End Origins.

(** X5: every key of the submission map is the name of an input, a
    textarea or a select of the form. *)
Theorem X5_keys_are_field_names (form : node) (msg : OutreachMessage)
    (site : BusinessSite) (k : string) :
  is_Some (_prepare_form_data form msg site !! k) ->
  exists x,
    (In x (find_all "input" form) \/ In x (find_all "textarea" form)
     \/ In x (find_all "select" form))
    /\ field_name x = k.
Proof.
  unfold _prepare_form_data. cbv zeta. intros H.
  apply (loop_key_origin _ process_select_shape) in H as [H | (x & Hx & Hk)];
    [|eauto].
  apply (loop_key_origin _ (process_textarea_shape msg)) in H
    as [H | (x & Hx & Hk)]; [|eauto].
  apply (loop_key_origin _ (process_input_shape (field_mappings msg))) in H
    as [H | (x & Hx & Hk)]; [|eauto].
  rewrite lookup_empty in H. destruct H as [? H]. discriminate H.
Qed.

Lemma X5_witness :
  exists x,
    (In x (find_all "input" csrf_form) \/ In x (find_all "textarea" csrf_form)
     \/ In x (find_all "select" csrf_form))
    /\ field_name x = "csrf".
Proof.
  apply (X5_keys_are_field_names csrf_form msg0 site0 "csrf").
  exists "A b/+=9". reflexivity.
Defined.

(** X6: a named textarea receives the message body whatever its name,
    also when an input carries the same name, unless a later textarea or
    a select of that name overwrites it. *)
Theorem X6_textarea_gets_message (form : node) (msg : OutreachMessage)
    (site : BusinessSite) (pre : list node) (t : node) (post : list node) :
  find_all "textarea" form = pre ++ t :: post ->
  field_name t <> "" ->
  Forall (fun y => field_name y <> field_name t) post ->
  Forall (fun y => field_name y <> field_name t) (find_all "select" form) ->
  _prepare_form_data form msg site !! field_name t = Some (message msg).
Proof.
  intros E Hn Hpost Hsel. unfold _prepare_form_data. cbv zeta.
  rewrite (loop_other _ process_select_shape _ _ _ Hsel).
  rewrite E, foldl_app. simpl.
  rewrite (loop_other _ (process_textarea_shape msg) _ _ _ Hpost).
  unfold process_textarea at 1. cbv zeta. fold (field_name t).
  apply truthy_nonempty in Hn. rewrite Hn. apply lookup_insert_eq.
Qed.

Lemma X6_witness :
  _prepare_form_data signup_form msg0 site0 !! "notes"
  = Some "We found three issues.".
Proof.
  apply (X6_textarea_gets_message signup_form msg0 site0 []
           (Tag "textarea" [("name", "notes")] None []) []).
  - reflexivity.
  - discriminate.
  - constructor.
  - repeat constructor. discriminate.
Defined.

(** X7: a named select is sent with the [value] of its first option (the
    empty string when that option has none), unless a later select of the
    same name overwrites it; a select without option adds nothing. *)
Theorem X7_select_gets_first_option (form : node) (msg : OutreachMessage)
    (site : BusinessSite) (pre : list node) (s : node) (post : list node) :
  find_all "select" form = pre ++ s :: post ->
  field_name s <> "" ->
  Forall (fun y => field_name y <> field_name s) post ->
  match find "option" s with
  | Some first_option =>
      _prepare_form_data form msg site !! field_name s
      = Some (get_default "value" "" first_option)
  | None => forall m : gmap string string, process_select m s = m
  end.
Proof.
  intros E Hn Hpost.
  destruct (find "option" s) as [o|] eqn:Ho.
  - unfold _prepare_form_data. cbv zeta.
    rewrite E, foldl_app. simpl.
    rewrite (loop_other _ process_select_shape _ _ _ Hpost).
    unfold process_select at 1. cbv zeta. fold (field_name s).
    apply truthy_nonempty in Hn. rewrite Hn, Ho. apply lookup_insert_eq.
  - intros m. unfold process_select. cbv zeta. rewrite Ho.
    destruct (truthy (get_default "name" "" s)); reflexivity.
Qed.

Lemma X7_witness :
  _prepare_form_data signup_form msg0 site0 !! "country" = Some "us".
Proof.
  apply (X7_select_gets_first_option signup_form msg0 site0 []
           (Tag "select" [("name", "country")] None
              [ Tag "option" [("value", "us")] None [NavigableString "United States"];
                Tag "option" [("value", "ca")] None [NavigableString "Canada"] ]) []).
  - reflexivity.
  - discriminate.
  - constructor.
Defined.

(** An input of a type the loop has no branch for, or a radio button
    whose [checked] attribute is absent or empty, changes nothing. *)
Lemma process_input_unhandled mp (m : gmap string string) x :
  str_in_list (field_type x) ["text"; "email"; "tel"; "hidden"; "checkbox"; "radio"]
  = false
  \/ (field_type x = "radio" /\ opt_truthy (Bs4.get "checked" x) = false) ->
  process_input mp m x = m.
Proof.
  unfold field_type, process_input. cbv zeta.
  destruct (negb (truthy (get_default "name" "" x))); [reflexivity|].
  intros [H | [Ht Hc]].
  - unfold str_in_list in *. simpl in *.
    repeat (apply orb_false_elim in H as [? H]).
    repeat match goal with E : String.eqb _ _ = false |- _ => rewrite E; clear E end.
    reflexivity.
  - rewrite Ht, Hc. reflexivity.
Qed.

(** X8: a name carried only by inputs the mapper does not handle (any
    type other than text, email, tel, hidden, checkbox and radio, such as
    password, number or url) or by radio buttons without a non-empty
    [checked] attribute is absent from the submission map. *)
Theorem X8_unhandled_inputs_not_sent (form : node) (msg : OutreachMessage)
    (site : BusinessSite) (k : string) :
  (forall x, In x (find_all "input" form) -> field_name x = k ->
     str_in_list (field_type x)
       ["text"; "email"; "tel"; "hidden"; "checkbox"; "radio"] = false
     \/ (field_type x = "radio" /\ opt_truthy (Bs4.get "checked" x) = false)) ->
  Forall (fun y => field_name y <> k) (find_all "textarea" form) ->
  Forall (fun y => field_name y <> k) (find_all "select" form) ->
  _prepare_form_data form msg site !! k = None.
Proof.
  intros Hin Hta Hsel. unfold _prepare_form_data. cbv zeta.
  rewrite (loop_other _ process_select_shape _ _ _ Hsel).
  rewrite (loop_other _ (process_textarea_shape msg) _ _ _ Hta).
  rewrite (loop_silent (process_input (field_mappings msg))).
  - apply lookup_empty.
  - intros x m' Hx. destruct (decide (field_name x = k)) as [Hk | Hk].
    + rewrite (process_input_unhandled _ _ x (Hin x Hx Hk)). reflexivity.
    + apply (step_other _ (process_input_shape (field_mappings msg)) _ _ _ Hk).
Qed.

Lemma X8_witness :
  _prepare_form_data signup_form msg0 site0 !! "plan" = None.
Proof.
  apply (X8_unhandled_inputs_not_sent signup_form msg0 site0 "plan").
  - intros x [<- | [<- | [<- | []]]] Hk;
      [discriminate Hk | discriminate Hk | right; split; reflexivity].
  - repeat constructor. discriminate.
  - repeat constructor. discriminate.
Defined.

(** ** CAPTCHA detection *)

Import Markers MoreWorlds.

Lemma head_filter_None {A} (p : A -> bool) (l : list A) :
  head (List.filter p l) = None <-> forall x, In x l -> p x = false.
Proof.
  induction l as [|a l IH]; simpl.
  - split; [intros _ x [] | reflexivity].
  - destruct (p a) eqn:E; simpl.
    + split; [discriminate|]. intros H. rewrite (H a) in E by now left.
      discriminate.
    + rewrite IH. split.
      * intros H x [<- | Hx]; auto.
      * intros H x Hx. apply H. now right.
Qed.

Lemma head_filter_Some {A} (p : A -> bool) (l : list A) (x : A) :
  head (List.filter p l) = Some x -> In x l /\ p x = true.
Proof.
  intros H. apply filter_In.
  destruct (List.filter p l) as [|y l']; [discriminate|].
  injection H as ->. now left.
Qed.

Lemma find_where_None p soup :
  find_where p soup = None <-> forall d, In d (descendants soup) -> p d = false.
Proof. apply head_filter_None. Qed.

(** A challenge is reported exactly when a type is. *)
Lemma detected_iff_typed (soup : node) :
  has_captcha (detect_captcha_type soup) = true
  <-> type (detect_captcha_type soup) <> None.
Proof.
  unfold detect_captcha_type.
  repeat match goal with
         | |- context [match find_where ?p ?s with _ => _ end] =>
             destruct (find_where p s)
         end; simpl; split; congruence.
Qed.

(** X9: the detection result is well formed: a type is reported exactly
    when a challenge is; it is one of recaptcha, hcaptcha, image and text;
    a site key comes only with the first two and an image source only
    with the third. *)
Theorem X9_captcha_info_well_formed (soup : node) :
  let info := detect_captcha_type soup in
  (has_captcha info = true <-> type info <> None)
  /\ (has_captcha info = true ->
      In (type info) [Some "recaptcha"; Some "hcaptcha"; Some "image"; Some "text"])
  /\ (site_key info <> None ->
      type info = Some "recaptcha" \/ type info = Some "hcaptcha")
  /\ (image_src info <> None -> type info = Some "image").
Proof.
  unfold detect_captcha_type.
  repeat match goal with
         | |- context [match find_where ?p ?s with _ => _ end] =>
             destruct (find_where p s)
         end; simpl; intuition (try congruence; try discriminate).
Qed.

Lemma detect_unfold (soup : node) :
  detect_captcha_type soup =
  match find_where is_recaptcha_div soup with
  | Some recaptcha_div =>
      mkCaptchaInfo true (Some "recaptcha") (Bs4.get "data-sitekey" recaptcha_div) None
  | None =>
  match find_where is_hcaptcha_div soup with
  | Some hcaptcha_div =>
      mkCaptchaInfo true (Some "hcaptcha") (Bs4.get "data-sitekey" hcaptcha_div) None
  | None =>
  match find_where is_captcha_img soup with
  | Some captcha_img => mkCaptchaInfo true (Some "image") None (Bs4.get "src" captcha_img)
  | None =>
  match find_where is_captcha_text soup with
  | Some _ => mkCaptchaInfo true (Some "text") None None
  | None => mkCaptchaInfo false None None None
  end end end end.
Proof. reflexivity. Qed.

Lemma find_where_hit p soup d :
  In d (descendants soup) -> p d = true -> find_where p soup <> None.
Proof.
  intros Hd Hp H. rewrite find_where_None in H.
  rewrite (H d Hd) in Hp. discriminate.
Qed.

Lemma detect_recaptcha_first (soup : node) :
  (exists d, In d (descendants soup) /\ is_recaptcha_div d = true) ->
  type (detect_captcha_type soup) = Some "recaptcha".
Proof.
  intros (d & Hd & Hp). rewrite detect_unfold.
  destruct (find_where is_recaptcha_div soup) eqn:E; [reflexivity|].
  exfalso. exact (find_where_hit _ _ _ Hd Hp E).
Qed.

Lemma detect_hcaptcha_second (soup : node) :
  (forall d, In d (descendants soup) -> is_recaptcha_div d = false) ->
  (exists d, In d (descendants soup) /\ is_hcaptcha_div d = true) ->
  type (detect_captcha_type soup) = Some "hcaptcha".
Proof.
  intros Hno (d & Hd & Hp). rewrite detect_unfold.
  apply find_where_None in Hno. rewrite Hno.
  destruct (find_where is_hcaptcha_div soup) eqn:E; [reflexivity|].
  exfalso. exact (find_where_hit _ _ _ Hd Hp E).
Qed.

Lemma detect_none_iff (soup : node) :
  has_captcha (detect_captcha_type soup) = false <-> no_marker soup.
Proof.
  rewrite detect_unfold. unfold no_marker. split.
  - destruct (find_where is_recaptcha_div soup) eqn:Ea; [discriminate|].
    destruct (find_where is_hcaptcha_div soup) eqn:Eb; [discriminate|].
    destruct (find_where is_captcha_img soup) eqn:Ec; [discriminate|].
    destruct (find_where is_captcha_text soup) eqn:Et; [discriminate|].
    rewrite find_where_None in Ea, Eb, Ec, Et.
    intros _ d Hd. auto.
  - intros H.
    assert (Ea : find_where is_recaptcha_div soup = None)
      by (apply find_where_None; intros d Hd; apply (H d Hd)).
    assert (Eb : find_where is_hcaptcha_div soup = None)
      by (apply find_where_None; intros d Hd; apply (H d Hd)).
    assert (Ec : find_where is_captcha_img soup = None)
      by (apply find_where_None; intros d Hd; apply (H d Hd)).
    assert (Et : find_where is_captcha_text soup = None)
      by (apply find_where_None; intros d Hd; apply (H d Hd)).
    rewrite Ea, Eb, Ec, Et. reflexivity.
Qed.

Lemma find_where_shows p soup :
  match find_where p soup with
  | Some _ => shows p soup
  | None => ~ shows p soup
  end.
Proof.
  destruct (find_where p soup) as [x|] eqn:E.
  - apply head_filter_Some in E. exists x. exact E.
  - intros (d & Hd & Hp). exact (find_where_hit _ _ _ Hd Hp E).
Qed.

(** X10: detection follows the priority ReCaptcha, hCaptcha, image,
    text: the type reported is recaptcha exactly when the page holds a
    [g-recaptcha] div; hcaptcha exactly when it holds no such div but an
    [h-captcha] div; image exactly when it holds neither div but an
    image whose source mentions "captcha"; text exactly when it holds
    none of these three but a text that mentions "captcha"; and no
    challenge is reported exactly when the page shows none of the four
    markers. *)
Theorem X10_detection_priority (soup : node) :
  (type (detect_captcha_type soup) = Some "recaptcha"
   <-> shows is_recaptcha_div soup)
  /\ (type (detect_captcha_type soup) = Some "hcaptcha"
      <-> ~ shows is_recaptcha_div soup /\ shows is_hcaptcha_div soup)
  /\ (type (detect_captcha_type soup) = Some "image"
      <-> ~ shows is_recaptcha_div soup /\ ~ shows is_hcaptcha_div soup
          /\ shows is_captcha_img soup)
  /\ (type (detect_captcha_type soup) = Some "text"
      <-> ~ shows is_recaptcha_div soup /\ ~ shows is_hcaptcha_div soup
          /\ ~ shows is_captcha_img soup /\ shows is_captcha_text soup)
  /\ (has_captcha (detect_captcha_type soup) = false <-> no_marker soup).
Proof.
  assert (Ha := find_where_shows is_recaptcha_div soup).
  assert (Hb := find_where_shows is_hcaptcha_div soup).
  assert (Hc := find_where_shows is_captcha_img soup).
  assert (Ht := find_where_shows is_captcha_text soup).
  repeat apply conj; try apply detect_none_iff; rewrite detect_unfold;
    destruct (find_where is_recaptcha_div soup);
    destruct (find_where is_hcaptcha_div soup);
    destruct (find_where is_captcha_img soup);
    destruct (find_where is_captcha_text soup);
    cbn [type]; try discriminate; try reflexivity; try tauto;
    try (exfalso; tauto); try (intros (_ & _ & _ & X); tauto).
Qed.

Lemma X10_witness :
  type (detect_captcha_type guarded_page) = Some "recaptcha"
  /\ type (detect_captcha_type image_and_text_page) = Some "image".
Proof.
  split.
  - apply (proj1 (X10_detection_priority guarded_page)).
    exists (Tag "div" [("data-sitekey", "6Lc-key")] (Some ["g-recaptcha"]) []).
    split; [simpl; auto | reflexivity].
  - apply (proj1 (proj2 (proj2 (X10_detection_priority image_and_text_page)))).
    split; [|split].
    + intros (d & Hd & Hp). simpl in Hd.
      repeat (destruct Hd as [<- | Hd]; [discriminate Hp|]). destruct Hd.
    + intros (d & Hd & Hp). simpl in Hd.
      repeat (destruct Hd as [<- | Hd]; [discriminate Hp|]). destruct Hd.
    + exists (Tag "img" [("src", "/captcha.png")] None []).
      split; [simpl; auto 10 | reflexivity].
Defined.

(** ** Static submission path, continued *)

Import Calls.

(** Handling a CAPTCHA returns normally, having sent at most one
    request, a GET. *)
Lemma handle_captcha_cases w info form_url soup tr :
  exists o gets,
    _handle_captcha w info form_url soup tr = (inr o, tr ++ gets)
    /\ forallb is_get gets = true /\ (length gets <= 1)%nat.
Proof.
  unfold _handle_captcha, try_except, handle_captcha_body, bind, lift, Static.get, ret.
  repeat match goal with
         | |- context [if ?b then _ else _] => destruct b
         | |- context [match ?o with Some _ => _ | None => _ end] => destruct o
         | |- context [match ?o with inl _ => _ | inr _ => _ end] => destruct o
         end;
    first [ eexists _, []; rewrite app_nil_r;
            split; [reflexivity | split; [reflexivity | simpl; lia]]
          | eexists _, [_];
            split; [reflexivity | split; [reflexivity | simpl; lia]] ].
Qed.

(** The five ways an attempt can end. *)
Lemma submit_cases w site msg :
  (contact_form_url site = None
   /\ submit_contact_form w site msg []
      = (inr (error_form (url site) "No contact form found"), []))
  \/ exists u, contact_form_url site = Some u /\
     ((exists gets e,
         forallb is_get gets = true /\ (length gets <= 1)%nat
         /\ submit_contact_form w site msg []
            = (inr (error_form u e), GET u :: gets))
      \/ (exists gets ty,
            forallb is_get gets = true /\ (length gets <= 1)%nat
            /\ submit_contact_form w site msg []
               = (inr (mkContactForm u ∅ true ty false
                         (Some "Failed to solve CAPTCHA")),
                  GET u :: gets))
      \/ (exists gets target data e,
            forallb is_get gets = true /\ (length gets <= 1)%nat
            /\ session_post w (GET u :: gets) target data = inl e
            /\ submit_contact_form w site msg []
               = (inr (error_form u e), GET u :: gets ++ [POST target data]))
      \/ (exists gets target data response hc ty,
            forallb is_get gets = true /\ (length gets <= 1)%nat
            /\ session_post w (GET u :: gets) target data = inr response
            /\ submit_contact_form w site msg []
               = (inr (mkContactForm u data hc ty
                         (_check_submission_success response)
                         (if _check_submission_success response
                          then None else Some "Form submission failed")),
                  GET u :: gets ++ [POST target data]))).
Proof.
  unfold submit_contact_form.
  destruct (contact_form_url site) as [u|];
    [right; exists u; split; [reflexivity|] | left; split; reflexivity].
  unfold try_except, submit_body, bind, Static.get, raise_for_status.
  destruct (session_get w [] u) as [e | response]; simpl;
    [left; exists [], e; simpl; auto|].
  destruct ((400 <=? status_code response) && (status_code response <? 600));
    simpl; [left; exists [], "HTTPError"; simpl; auto|].
  destruct (_find_contact_form (BeautifulSoup w (text response))) as [form|];
    simpl; [|left; exists [], "No contact form found on page"; simpl; auto].
  destruct (has_captcha (detect_captcha_type (BeautifulSoup w (text response)))).
  - destruct (handle_captcha_cases w
                (detect_captcha_type (BeautifulSoup w (text response)))
                u (BeautifulSoup w (text response)) [GET u])
      as (o & gets & E & Hg & Hl).
    rewrite E. simpl. destruct o as [[k v]|]; simpl.
    + unfold lift, post.
      destruct (_get_submit_url w form u) as [e | target]; simpl;
        [left; exists gets, e; auto|].
      destruct (session_post w (GET u :: gets) target
                  (<[k:=v]> (_prepare_form_data form msg site)))
        as [e | submit_response] eqn:Ep; simpl.
      * right. right. left. eexists gets, _, _, e. eauto.
      * right. right. right. eexists gets, _, _, submit_response, _, _. eauto.
    + right. left. eexists gets, _. eauto.
  - simpl. unfold lift, post.
    destruct (_get_submit_url w form u) as [e | target]; simpl;
      [left; exists [], e; simpl; auto|].
    destruct (session_post w [GET u] target (_prepare_form_data form msg site))
      as [e | submit_response] eqn:Ep; simpl.
    + right. right. left. eexists [], _, _, e. simpl. eauto.
    + right. right. right. eexists [], _, _, submit_response, _, _. simpl. eauto.
Qed.

(** X11: an attempt never raises: it always returns a form.  In that
    form [submitted] is true exactly when there is no error message, and
    then the last request was the POST of the recorded fields, the site
    answered it, and the classifier accepted the answer. *)
Theorem X11_outcome_is_always_a_form (w : World) (site : BusinessSite)
    (msg : OutreachMessage) :
  exists cf requests,
    submit_contact_form w site msg [] = (inr cf, requests)
    /\ (submitted cf = true <-> error_message cf = None)
    /\ (submitted cf = true ->
        exists earlier target response,
          requests = earlier ++ [POST target (form_fields cf)]
          /\ session_post w earlier target (form_fields cf) = inr response
          /\ _check_submission_success response = true).
Proof.
  destruct (submit_cases w site msg)
    as [[_ E] | (u & _ & [(gets & e & _ & _ & E) | [(gets & ty & _ & _ & E)
         | [(gets & target & data & e & _ & _ & _ & E)
           | (gets & target & data & response & hc & ty & _ & _ & Hp & E)]]])];
    rewrite E; eexists _, _; (split; [reflexivity|]); unfold error_form; simpl;
    try (split; [split; discriminate | discriminate]).
  split.
  - destruct (_check_submission_success response); split; intros X;
      first [reflexivity | discriminate X].
  - intros Hs. exists (GET u :: gets), target, response. auto.
Qed.

(** X12: the requests an attempt sends through the site session
    ([self.session]; the solving service's own traffic is not part of
    this trace): none when the site has no contact form URL; otherwise
    the GET of the form page first, at most three requests in all, and a
    POST, if any, only as the very last one. *)
Theorem X12_request_discipline (w : World) (site : BusinessSite)
    (msg : OutreachMessage) :
  let session_requests := snd (submit_contact_form w site msg []) in
  match contact_form_url site with
  | None => session_requests = []
  | Some form_url => head session_requests = Some (GET form_url)
  end
  /\ (length session_requests <= 3)%nat
  /\ existsb is_post (removelast session_requests) = false.
Proof.
  cbv zeta.
  destruct (submit_cases w site msg)
    as [[Hu E] | (u & Hu & [(gets & e & Hg & Hl & E) | [(gets & ty & Hg & Hl & E)
         | [(gets & target & data & e & Hg & Hl & _ & E)
           | (gets & target & data & response & hc & ty & Hg & Hl & _ & E)]]])];
    rewrite E, Hu; simpl.
  1: repeat apply conj; try reflexivity; lia.
  all: destruct gets as [|g [|g' gets]]; simpl in Hl; try lia; simpl.
  all: repeat apply conj; try reflexivity; try lia.
  all: simpl in Hg; unfold is_get in Hg; destruct (is_post g);
    [discriminate Hg | reflexivity].
Qed.

(** X13: when the form page cannot be used, whether the GET raises, the
    status is a 4xx or 5xx, or the page has no form, the attempt ends
    after that single GET with an unsubmitted form carrying an error
    message; for a transport error the message is the text of the
    exception, for a page without form it is "No contact form found on
    page". *)
Theorem X13_unusable_page_stops_after_the_get (w : World) (site : BusinessSite)
    (msg : OutreachMessage) (form_url : string) :
  contact_form_url site = Some form_url ->
  (forall e, session_get w [] form_url = inl e ->
     submit_contact_form w site msg [] = (inr (error_form form_url e), [GET form_url]))
  /\ (forall response,
        session_get w [] form_url = inr response ->
        ((400 <=? status_code response) && (status_code response <? 600)) = true ->
        exists e, submit_contact_form w site msg []
                  = (inr (error_form form_url e), [GET form_url]))
  /\ (forall response,
        session_get w [] form_url = inr response ->
        ((400 <=? status_code response) && (status_code response <? 600)) = false ->
        _find_contact_form (BeautifulSoup w (text response)) = None ->
        submit_contact_form w site msg []
        = (inr (error_form form_url "No contact form found on page"),
           [GET form_url])).
Proof.
  intros Hu. unfold submit_contact_form. rewrite Hu.
  unfold try_except, submit_body, bind, Static.get, raise_for_status.
  repeat split.
  - intros e ->. reflexivity.
  - intros response -> Hs. simpl. rewrite Hs. simpl. eauto.
  - intros response -> Hs Hf. simpl. rewrite Hs. simpl. rewrite Hf. reflexivity.
Qed.

Lemma X13_witness :
  submit_contact_form site_down site0 msg0 []
  = (inr (error_form "https://shop.example/contact" "ConnectionError"),
     [GET "https://shop.example/contact"]).
Proof.
  apply (proj1 (X13_unusable_page_stops_after_the_get site_down site0 msg0
                  "https://shop.example/contact" eq_refl)).
  reflexivity.
Defined.

(** X14: on a page without challenge the attempt is the GET of the page
    followed by one POST of the prepared fields to the submit URL: the
    form's action when it starts with "http", the action joined to the
    page URL otherwise, the page URL itself when the form has no action
    or an empty one.  The form returned records those fields and is
    submitted exactly when the classifier accepts the answer; if the POST
    raises, the form carries the text of the exception; and if the
    submit URL cannot be built ([urljoin] raises on a malformed action),
    nothing is posted and the form carries the text of that exception. *)
Theorem X14_plain_page_is_posted_once (w : World) (site : BusinessSite)
    (msg : OutreachMessage) (form_url : string) (response : Response)
    (form : node) :
  contact_form_url site = Some form_url ->
  form_located w form_url response form ->
  has_captcha (detect_captcha_type (BeautifulSoup w (text response))) = false ->
  let data := _prepare_form_data form msg site in
  let submit_url :=
    match Bs4.get "action" form with
    | None | Some "" => inr form_url
    | Some action =>
        if startswith "http" action then inr action
        else urljoin w form_url action
    end in
  submit_contact_form w site msg []
  = match submit_url with
    | inl e => (inr (error_form form_url e), [GET form_url])
    | inr target =>
        (inr match session_post w [GET form_url] target data with
             | inr answer =>
                 mkContactForm form_url data false
                   (type (detect_captcha_type (BeautifulSoup w (text response))))
                   (_check_submission_success answer)
                   (if _check_submission_success answer
                    then None else Some "Form submission failed")
             | inl e => error_form form_url e
             end,
         [GET form_url; POST target data])
    end.
Proof.
  intros Hu (Hget & Hs & Hf) Hc. cbv zeta.
  assert (Hsubmit : _get_submit_url w form form_url
                    = match Bs4.get "action" form with
                      | None | Some "" => inr form_url
                      | Some action =>
                          if startswith "http" action then inr action
                          else urljoin w form_url action
                      end).
  { unfold _get_submit_url, get_default. cbv zeta.
    destruct (Bs4.get "action" form) as [[|c action]|]; reflexivity. }
  rewrite <- Hsubmit.
  unfold submit_contact_form. rewrite Hu.
  unfold try_except, submit_body, bind, lift, Static.get, raise_for_status, post.
  rewrite Hget. simpl. rewrite Hs. simpl. rewrite Hf. simpl. rewrite Hc. simpl.
  destruct (_get_submit_url w form form_url) as [e | target]; [reflexivity|].
  destruct (session_post w [GET form_url] target
              (_prepare_form_data form msg site)); reflexivity.
Qed.

Lemma X14_witness :
  submit_contact_form friendly_site site0 msg0 []
  = (inr (mkContactForm "https://shop.example/contact"
            (_prepare_form_data contact_form msg0 site0) false None true None),
     [GET "https://shop.example/contact";
      POST "https://shop.example/contact/contact"
           (_prepare_form_data contact_form msg0 site0)])
  /\ submit_contact_form broken_action_site site0 msg0 []
     = (inr (error_form "https://shop.example/contact" "Invalid IPv6 URL"),
        [GET "https://shop.example/contact"]).
Proof.
  split.
  - apply (X14_plain_page_is_posted_once friendly_site site0 msg0
             "https://shop.example/contact" (mkResponse 200 "<html>") contact_form).
    + reflexivity.
    + split; [reflexivity | split; reflexivity].
    + reflexivity.
  - apply (X14_plain_page_is_posted_once broken_action_site site0 msg0
             "https://shop.example/contact" (mkResponse 200 "<html>")
             broken_action_form).
    + reflexivity.
    + split; [reflexivity | split; reflexivity].
    + reflexivity.
Defined.

(** X15: when a ReCaptcha challenge is solved and the submit URL can be
    built, the requests sent through the site session are the GET of the
    page and then one POST to the submit URL, whose data are the prepared
    fields with the token added under the key g-recaptcha-response
    (replacing a field of that name, if any).  The solving service's own
    traffic, which takes place between the two, is not part of this
    trace. *)
Theorem X15_solved_recaptcha_token_is_posted (w : World) (site : BusinessSite)
    (msg : OutreachMessage) (form_url : string) (response : Response)
    (form : node) (key token target : string) :
  contact_form_url site = Some form_url ->
  form_located w form_url response form ->
  type (detect_captcha_type (BeautifulSoup w (text response))) = Some "recaptcha" ->
  site_key (detect_captcha_type (BeautifulSoup w (text response))) = Some key ->
  key <> "" ->
  fst (solve_recaptcha (captcha_solver w) key form_url) = Some token ->
  token <> "" ->
  _get_submit_url w form form_url = inr target ->
  let session_requests := snd (submit_contact_form w site msg []) in
  session_requests
  = [GET form_url;
     POST target
          (<["g-recaptcha-response" := token]> (_prepare_form_data form msg site))].
Proof.
  intros Hu (Hget & Hs & Hf) Ht Hk Hkey Hsol Htok Htarget. cbv zeta.
  apply truthy_nonempty in Hkey, Htok.
  assert (Hc : has_captcha (detect_captcha_type (BeautifulSoup w (text response))) = true)
    by (apply detected_iff_typed; congruence).
  unfold submit_contact_form. rewrite Hu.
  unfold try_except, submit_body, bind, lift, Static.get, raise_for_status, post.
  rewrite Hget. simpl. rewrite Hs. simpl. rewrite Hf. simpl. rewrite Hc.
  unfold _handle_captcha, try_except, handle_captcha_body.
  rewrite Ht, Hk. simpl. rewrite Hkey, Hsol, Htok. simpl. rewrite Htarget.
  destruct (session_post w [GET form_url] target
              (<["g-recaptcha-response":=token]> (_prepare_form_data form msg site)));
    reflexivity.
Qed.

Lemma X15_witness :
  snd (submit_contact_form solver_up site0 msg0 [])
  = [GET "https://shop.example/contact";
     POST "https://shop.example/contact/contact"
          (<["g-recaptcha-response" := "03AGdBq2"]>
             (_prepare_form_data guarded_form msg0 site0))].
Proof.
  apply (X15_solved_recaptcha_token_is_posted solver_up site0 msg0
           "https://shop.example/contact" (mkResponse 200 "<html>") guarded_form
           "6Lc-key" "03AGdBq2" "https://shop.example/contact/contact").
  - reflexivity.
  - split; [reflexivity | split; reflexivity].
  - reflexivity.
  - reflexivity.
  - discriminate.
  - reflexivity.
  - discriminate.
  - reflexivity.
Defined.

(** X16: a page whose challenge is an hCaptcha widget or a text CAPTCHA
    is never submitted by this path, whatever the solving service could
    do: the attempt ends after the GET of the page with the CAPTCHA
    failure message. *)
Theorem X16_hcaptcha_and_text_are_never_submitted (w : World)
    (site : BusinessSite) (msg : OutreachMessage) (form_url : string)
    (response : Response) (form : node) (kind : string) :
  contact_form_url site = Some form_url ->
  form_located w form_url response form ->
  type (detect_captcha_type (BeautifulSoup w (text response))) = Some kind ->
  kind = "hcaptcha" \/ kind = "text" ->
  submit_contact_form w site msg []
  = (inr (mkContactForm form_url ∅ true (Some kind) false
            (Some "Failed to solve CAPTCHA")),
     [GET form_url]).
Proof.
  intros Hu (Hget & Hs & Hf) Ht Hkind.
  assert (Hc : has_captcha (detect_captcha_type (BeautifulSoup w (text response))) = true)
    by (apply detected_iff_typed; congruence).
  unfold submit_contact_form. rewrite Hu.
  unfold try_except, submit_body, bind, Static.get, raise_for_status.
  rewrite Hget. simpl. rewrite Hs. simpl. rewrite Hf. simpl. rewrite Hc.
  rewrite unsolvable_kind_gives_no_solution
    by (rewrite Ht; destruct Hkind as [-> | ->]; reflexivity).
  simpl. rewrite Ht. reflexivity.
Qed.

Lemma X16_witness :
  submit_contact_form hcaptcha_site site0 msg0 []
  = (inr (mkContactForm "https://shop.example/contact" ∅ true (Some "hcaptcha")
            false (Some "Failed to solve CAPTCHA")),
     [GET "https://shop.example/contact"]).
Proof.
  apply (X16_hcaptcha_and_text_are_never_submitted hcaptcha_site site0 msg0
           "https://shop.example/contact" (mkResponse 200 "<html>") hcaptcha_form
           "hcaptcha").
  - reflexivity.
  - split; [reflexivity | split; reflexivity].
  - reflexivity.
  - left. reflexivity.
Defined.

(** ** CAPTCHA polling, continued *)

Import MoreStubs.

Section LoopResults.

Variable answers : nat -> verdict.

(** A token returned by the loop is the one a ready answer carried, and
    every answer before it was "not ready". *)
Lemma wait_token_origin (n : nat) (r r' : run) (token : string) :
  wait_for_solution answers n r = (Some token, r') ->
  exists k, (k < n)%nat
            /\ answers (polls r + k)%nat = Ready token
            /\ (forall i, (i < k)%nat -> answers (polls r + i)%nat = NotReady)
            /\ polls r' = (polls r + S k)%nat.
Proof.
  revert r. induction n as [|n IH]; intros r H; simpl in H; [discriminate|].
  destruct (answers (polls r)) eqn:E; try discriminate.
  - injection H as <- <-. exists 0%nat. rewrite Nat.add_0_r.
    repeat split; [lia | exact E | intros i Hi; lia | simpl; lia].
  - apply IH in H as (k & Hk & Ha & Hb & Hp). simpl in *.
    exists (S k). repeat split.
    + lia.
    + rewrite <- Ha. f_equal. lia.
    + intros [|i] Hi; [rewrite Nat.add_0_r; exact E|].
      rewrite <- (Hb i) by lia. f_equal. lia.
    + lia.
Qed.

End LoopResults.

(** X17: whatever the service does, accepted job or not, an image run
    polls at most 30 times and sleeps at most 300 seconds, a ReCaptcha
    run at most 60 times and 600 seconds, ten seconds per poll. *)
Theorem X17_runs_are_bounded (service : provider)
    (image_data key page_url : string) :
  let image_run := snd (solve_image_captcha service image_data) in
  let recaptcha_run := snd (solve_recaptcha service key page_url) in
  (slept image_run = 10 * Z.of_nat (polls image_run)
   /\ (polls image_run <= 30)%nat /\ slept image_run <= 300)
  /\ (slept recaptcha_run = 10 * Z.of_nat (polls recaptcha_run)
      /\ (polls recaptcha_run <= 60)%nat /\ slept recaptcha_run <= 600).
Proof.
  cbv zeta. split.
  - destruct (solve_image_cases service image_data)
      as [(id & _ & ->) | (_ & _ & Hp & Hs)].
    + destruct (wait_accounting (image_answers service id) 30 start) as [H1 H2].
      change (slept start) with 0 in H1.
      change (polls start) with 0%nat in H1, H2. lia.
    + rewrite Hp, Hs. lia.
  - destruct (solve_recaptcha_cases service key page_url)
      as [(id & _ & ->) | (_ & _ & Hp & Hs)].
    + destruct (wait_accounting (recaptcha_answers service id) 60 start) as [H1 H2].
      change (slept start) with 0 in H1.
      change (polls start) with 0%nat in H1, H2. lia.
    + rewrite Hp, Hs. lia.
Qed.

(** X18: a job the service does not accept (the request raises, the
    answer is not a success, or it carries no job id) is never polled:
    the run fails at once, without sleeping. *)
Theorem X18_refused_job_is_not_polled (service : provider)
    (image_data key page_url : string) :
  ((forall id, ~ accepted service (ImageJob image_data) id) ->
   fst (solve_image_captcha service image_data) = None
   /\ polls (snd (solve_image_captcha service image_data)) = 0%nat
   /\ slept (snd (solve_image_captcha service image_data)) = 0)
  /\ ((forall id, ~ accepted service (RecaptchaJob key page_url) id) ->
      fst (solve_recaptcha service key page_url) = None
      /\ polls (snd (solve_recaptcha service key page_url)) = 0%nat
      /\ slept (snd (solve_recaptcha service key page_url)) = 0).
Proof.
  split; intros Hno.
  - destruct (solve_image_cases service image_data)
      as [(id & Ha & _) | (_ & H)]; [destruct (Hno id Ha) | exact H].
  - destruct (solve_recaptcha_cases service key page_url)
      as [(id & Ha & _) | (_ & H)]; [destruct (Hno id Ha) | exact H].
Qed.

Lemma X18_witness :
  fst (solve_image_captcha out_of_credit "png") = None
  /\ polls (snd (solve_image_captcha out_of_credit "png")) = 0%nat
  /\ slept (snd (solve_image_captcha out_of_credit "png")) = 0.
Proof.
  apply (proj1 (X18_refused_job_is_not_polled out_of_credit "png" "k" "u")).
  intros id (result & E & Hs & _). injection E as <-. discriminate Hs.
Defined.

(** X19: a token is never made up: when a run returns one, the job had
    been accepted, the token is the one the service sent in its first
    ready reply (under [request] with status 1 for 2Captcha, under the
    solution key with status "ready" for Anti-Captcha), every earlier
    reply was a "not ready" one, and the run stopped at that poll, within
    the bound. *)
Theorem X19_token_comes_from_the_service (service : provider)
    (image_data key page_url token : string) :
  (fst (solve_image_captcha service image_data) = Some token ->
   exists id k,
     accepted service (ImageJob image_data) id /\ (k < 30)%nat
     /\ reply_ready service Image id k token
     /\ (forall i, (i < k)%nat -> reply_not_ready service id i)
     /\ polls (snd (solve_image_captcha service image_data)) = S k)
  /\ (fst (solve_recaptcha service key page_url) = Some token ->
      exists id k,
        accepted service (RecaptchaJob key page_url) id /\ (k < 60)%nat
        /\ reply_ready service Recaptcha id k token
        /\ (forall i, (i < k)%nat -> reply_not_ready service id i)
        /\ polls (snd (solve_recaptcha service key page_url)) = S k).
Proof.
  split; intros H.
  - destruct (solve_image_cases service image_data)
      as [(id & Ha & E) | (_ & Hn & _)]; [|congruence].
    rewrite E in H |- *.
    destruct (wait_for_solution (image_answers service id) 30 start)
      as [res r'] eqn:Ew.
    cbn [fst] in H. subst res.
    apply wait_token_origin in Ew as (k & Hk & Hr & Hnr & Hp).
    change (polls start) with 0%nat in Hr, Hnr, Hp. cbn [Nat.add] in Hr, Hnr, Hp.
    exists id, k. split; [exact Ha|]. split; [exact Hk|]. split; [|split].
    + apply (reading_ready service Image). exact Hr.
    + intros i Hi. apply (reading_not_ready service Image). apply Hnr. exact Hi.
    + exact Hp.
  - destruct (solve_recaptcha_cases service key page_url)
      as [(id & Ha & E) | (_ & Hn & _)]; [|congruence].
    rewrite E in H |- *.
    destruct (wait_for_solution (recaptcha_answers service id) 60 start)
      as [res r'] eqn:Ew.
    cbn [fst] in H. subst res.
    apply wait_token_origin in Ew as (k & Hk & Hr & Hnr & Hp).
    change (polls start) with 0%nat in Hr, Hnr, Hp. cbn [Nat.add] in Hr, Hnr, Hp.
    exists id, k. split; [exact Ha|]. split; [exact Hk|]. split; [|split].
    + apply (reading_ready service Recaptcha). exact Hr.
    + intros i Hi. apply (reading_not_ready service Recaptcha). apply Hnr. exact Hi.
    + exact Hp.
Qed.

Lemma X19_witness :
  exists id k,
    accepted ready_at_third (RecaptchaJob "6Lc-key" "https://shop.example/contact") id
    /\ (k < 60)%nat
    /\ reply_ready ready_at_third Recaptcha id k "03AGdBq2"
    /\ (forall i, (i < k)%nat -> reply_not_ready ready_at_third id i)
    /\ polls (snd (solve_recaptcha ready_at_third "6Lc-key"
                     "https://shop.example/contact")) = S k.
Proof.
  apply (proj2 (X19_token_comes_from_the_service ready_at_third "png"
                  "6Lc-key" "https://shop.example/contact" "03AGdBq2")).
  reflexivity.
Defined.

(** ** Rate limiter, continued *)

(** X22: [wait_for_domain] touches nothing but the entry of its own
    domain: the global timestamp and the timestamps of the other domains
    stay as they were; and the first request to a domain is not delayed
    at all. *)
Theorem X22_domains_do_not_block_each_other (domain : string) (s s' : state) :
  wait_for_domain domain s = Some s' ->
  last_global_call s' = last_global_call s
  /\ (forall other, other <> domain ->
        domain_calls s' !! other = domain_calls s !! other)
  /\ (domain_calls s !! domain = None -> clock s' = clock s).
Proof.
  unfold wait_for_domain. cbv zeta.
  destruct (min_interval (per_domain_qps s)) as [mi|]; [|discriminate].
  intros [= <-]. simpl. repeat split.
  - destruct (domain_calls s !! domain) as [last|]; [|reflexivity].
    destruct (Qltb (clock s - last) mi); reflexivity.
  - intros other Ho. rewrite lookup_insert_ne by congruence.
    destruct (domain_calls s !! domain) as [last|]; [|reflexivity].
    destruct (Qltb (clock s - last) mi); reflexivity.
  - intros ->. reflexivity.
Qed.

Lemma X22_witness :
  last_global_call (mkState 1000 2 2 0 {[ "b" := 1000%Q ]}) = last_global_call fresh_limiter
  /\ (forall other, other <> "b" ->
        domain_calls (mkState 1000 2 2 0 {[ "b" := 1000%Q ]}) !! other
        = domain_calls fresh_limiter !! other)
  /\ (domain_calls fresh_limiter !! "b" = None ->
      clock (mkState 1000 2 2 0 {[ "b" := 1000%Q ]}) = clock fresh_limiter).
Proof.
  apply (X22_domains_do_not_block_each_other "b" fresh_limiter).
  reflexivity.
Defined.


(** ** Contact-page discovery and URL helpers *)

Import DiscoveryStubs.

Lemma match_patterns_cons (url_str content pattern : string) (patterns : list string) :
  Discovery.match_patterns url_str content (pattern :: patterns)
  = if py_in pattern content
    then (Discovery.rstrip_slash url_str +:+ pattern)
           :: Discovery.match_patterns url_str content patterns
    else Discovery.match_patterns url_str content patterns.
Proof. reflexivity. Qed.

Lemma match_patterns_In (url_str content u : string) (patterns : list string) :
  In u (Discovery.match_patterns url_str content patterns) ->
  exists pattern, In pattern patterns /\ py_in pattern content = true
                  /\ u = Discovery.rstrip_slash url_str +:+ pattern.
Proof.
  induction patterns as [|p ps IH]; [intros []|].
  rewrite match_patterns_cons. destruct (py_in p content) eqn:Hp.
  - intros [<- | Hin].
    + exists p. split; [left; reflexivity|]. split; [exact Hp | reflexivity].
    + destruct (IH Hin) as (q & Hq & Hc & Hu). exists q. split; [right; exact Hq|].
      split; assumption.
  - intros Hin. destruct (IH Hin) as (q & Hq & Hc & Hu). exists q.
    split; [right; exact Hq|]. split; assumption.
Qed.

Lemma match_patterns_nonempty (url_str content : string) (patterns : list string) :
  Discovery.nonempty (Discovery.match_patterns url_str content patterns)
  = any_in patterns content.
Proof.
  unfold any_in. induction patterns as [|p ps IH]; [reflexivity|].
  rewrite match_patterns_cons. cbn [existsb].
  destruct (py_in p content); [reflexivity | exact IH].
Qed.

Lemma contact_urls_of_cases (url_str content : string) :
  Discovery.contact_urls_of url_str content
  = if any_in Discovery.contact_patterns content
    then firstn 3 (Discovery.match_patterns url_str content Discovery.contact_patterns)
    else if any_in Discovery.contact_indicators content then [url_str]
    else if any_in Discovery.form_indicators content then [url_str]
    else [].
Proof.
  rewrite <- (match_patterns_nonempty url_str).
  unfold Discovery.contact_urls_of. cbv zeta.
  destruct (Discovery.match_patterns url_str content Discovery.contact_patterns)
    as [|u us]; cbn [Discovery.nonempty negb].
  - destruct (any_in Discovery.contact_indicators content); cbn [Discovery.nonempty negb].
    + reflexivity.
    + destruct (any_in Discovery.form_indicators content); reflexivity.
  - reflexivity.
Qed.

Lemma firstn_In' {A} (n : nat) (l : list A) (x : A) : In x (firstn n l) -> In x l.
Proof.
  intros H. rewrite <- (firstn_skipn n l). apply in_or_app. left. exact H.
Qed.

Lemma find_contact_forms_cases (netloc : string -> string)
    (requests_get : string -> string + Response) (url_str : string)
    (limiter : RateLimiter.state) :
  fst (Discovery.find_contact_forms netloc requests_get url_str limiter)
  = if (RateLimiter.per_domain_qps limiter =? 0)%Z then []
    else match requests_get url_str with
         | inl _ => []
         | inr response =>
             if (status_code response =? 200)%Z
             then Discovery.contact_urls_of url_str (lower (text response))
             else []
         end.
Proof.
  unfold Discovery.find_contact_forms, RateLimiter.wait_for_domain,
    RateLimiter.min_interval. cbv zeta.
  destruct (RateLimiter.per_domain_qps limiter =? 0)%Z; [reflexivity|].
  destruct (requests_get url_str) as [e | response]; [reflexivity|].
  destruct (status_code response =? 200)%Z; reflexivity.
Qed.

(** X24: [find_contact_forms] never returns more than three URLs, and
    each of them is either the page's own URL or the URL without its
    trailing slashes followed by one of the fifteen listed contact
    paths. *)
Theorem X24_at_most_three_candidate_urls (netloc : string -> string)
    (requests_get : string -> string + Response) (url_str : string)
    (limiter : RateLimiter.state) :
  let urls := fst (Discovery.find_contact_forms netloc requests_get url_str limiter) in
  (length urls <= 3)%nat
  /\ forall u, In u urls ->
       u = url_str
       \/ exists pattern, In pattern Discovery.contact_patterns
                          /\ u = Discovery.rstrip_slash url_str +:+ pattern.
Proof.
  cbv zeta. rewrite find_contact_forms_cases.
  destruct (RateLimiter.per_domain_qps limiter =? 0)%Z;
    [split; [simpl; lia | intros u []]|].
  destruct (requests_get url_str) as [e | response];
    [split; [simpl; lia | intros u []]|].
  destruct (status_code response =? 200)%Z;
    [|split; [simpl; lia | intros u []]].
  rewrite contact_urls_of_cases.
  destruct (any_in Discovery.contact_patterns (lower (text response))).
  - split; [apply firstn_le_length|].
    intros u Hu. apply firstn_In' in Hu.
    destruct (match_patterns_In _ _ _ _ Hu) as (p & Hp & _ & ->).
    right. exists p. split; [exact Hp | reflexivity].
  - destruct (any_in Discovery.contact_indicators (lower (text response))).
    + split; [simpl; lia|]. intros u [<- | []]. left. reflexivity.
    + destruct (any_in Discovery.form_indicators (lower (text response))).
      * split; [simpl; lia|]. intros u [<- | []]. left. reflexivity.
      * split; [simpl; lia | intros u []].
Qed.




(** X27: [_is_excluded_domain] is a case-insensitive substring test: a
    domain is excluded as soon as any listed name occurs anywhere inside
    it, in any letter case; so mydomain.com is excluded because it
    contains domain.com. *)
Theorem X27_excluded_by_substring (e pre word post : string) :
  In e Discovery.excluded_patterns ->
  lower word = e ->
  Discovery._is_excluded_domain (pre +:+ word +:+ post) = true.
Proof.
  intros Hin Hw. unfold Discovery._is_excluded_domain.
  apply any_in_lower_embedded with (e := e); assumption.
Qed.

Lemma X27_witness :
  Discovery._is_excluded_domain ("my" +:+ "Domain.com" +:+ "") = true.
Proof.
  apply (X27_excluded_by_substring "domain.com" "my" "Domain.com" "").
  - simpl. auto 20.
  - reflexivity.
Defined.

Lemma take_length (n : nat) (s : string) : (String.length (Discovery.take n s) <= n)%nat.
Proof.
  revert s. induction n as [|n IH]; intros [|c s]; simpl; try lia.
  specialize (IH s). lia.
Qed.

(** [s[:n]] is a prefix of [s], and all of [s] unless it is [n] long. *)
Lemma take_prefix (n : nat) (s : string) :
  exists rest, s = Discovery.take n s +:+ rest
               /\ (String.length (Discovery.take n s) = n \/ rest = "").
Proof.
  revert s. induction n as [|n IH]; intros s.
  - exists s. split; [reflexivity | left; reflexivity].
  - destruct s as [|c s].
    + exists "". split; [reflexivity | right; reflexivity].
    + destruct (IH s) as (rest & E & H). exists rest.
      cbn [Discovery.take]. rewrite app_cons. split.
      * f_equal. exact E.
      * destruct H as [H | H]; [left; simpl; lia | right; exact H].
Qed.

(** [s[4:]] gives back what follows a leading [www.]. *)
Lemma drop_www (host : string) :
  startswith "www." host = true -> host = "www." +:+ Discovery.drop 4 host.
Proof.
  intros H. destruct (startswith_split _ _ H) as [t ->].
  rewrite !app_cons, app_nil_l'. reflexivity.
Qed.

Lemma any_in_false (keys : list string) (s p : string) :
  any_in keys s = false -> In p keys -> py_in p s = false.
Proof.
  intros H Hp. destruct (py_in p s) eqn:E; [|reflexivity].
  rewrite (any_in_intro keys p s Hp E) in H. discriminate H.
Qed.

Lemma collect_businesses_length (netloc : string -> option string)
    (results : list Discovery.organic_result) :
  (length (Discovery.collect_businesses netloc results) <= length results)%nat.
Proof.
  induction results as [|r rs IH]; [simpl; lia|].
  cbn [Discovery.collect_businesses length].
  destruct (Discovery.link r) as [l|]; [|lia].
  destruct (Discovery.title r) as [t|]; [|lia].
  destruct (Discovery.extract_domain netloc l) as [d|]; [|lia].
  destruct (truthy d && negb (Discovery._is_excluded_domain d));
    cbn [length]; lia.
Qed.

Lemma collect_businesses_In (netloc : string -> option string)
    (results : list Discovery.organic_result) (b : Discovery.business) :
  In b (Discovery.collect_businesses netloc results) ->
  exists r l t d,
    In r results /\ Discovery.link r = Some l /\ Discovery.title r = Some t
    /\ Discovery.extract_domain netloc l = Some d
    /\ b = Discovery.mkBusiness (Discovery.take 50 t) d l
    /\ truthy d = true
    /\ Discovery._is_excluded_domain d = false.
Proof.
  induction results as [|r rs IH]; [intros []|].
  cbn [Discovery.collect_businesses].
  assert (Hrec : In b (Discovery.collect_businesses netloc rs) ->
                 exists r0 l t d,
                   In r0 (r :: rs) /\ Discovery.link r0 = Some l
                   /\ Discovery.title r0 = Some t
                   /\ Discovery.extract_domain netloc l = Some d
                   /\ b = Discovery.mkBusiness (Discovery.take 50 t) d l
                   /\ truthy d = true
                   /\ Discovery._is_excluded_domain d = false).
  { intros H. destruct (IH H) as (r0 & l & t & d & Hr & Hrest).
    exists r0, l, t, d. split; [right; exact Hr | exact Hrest]. }
  destruct (Discovery.link r) as [l|] eqn:Hl; [|exact Hrec].
  destruct (Discovery.title r) as [t|] eqn:Ht; [|exact Hrec].
  destruct (Discovery.extract_domain netloc l) as [d|] eqn:Hx; [|exact Hrec].
  destruct (truthy d) eqn:Hd; [|exact Hrec].
  destruct (Discovery._is_excluded_domain d) eqn:He; [exact Hrec|].
  cbn [andb negb]. intros [<- | H]; [|exact (Hrec H)].
  exists r, l, t, d. repeat apply conj; auto. left. reflexivity.
Qed.

(** X28: [_search_businesses] returns at most five businesses.  Each one
    comes from one of the first five organic results of a status-200
    answer that carry both a link and a title, and keeps that link as its
    URL; its name is the title cut after fifty characters; its domain is
    the link's netloc as [urlparse] gives it (a port and upper-case
    letters are kept) with one leading lower-case [www.] removed, is not
    empty, and contains none of the excluded names in any letter case. *)
Theorem X28_search_results_are_filtered (netloc : string -> option string)
    (api : string -> string -> string + (Z * option (list Discovery.organic_result)))
    (search_term region : string) :
  let businesses := Discovery._search_businesses netloc api search_term region in
  (length businesses <= 5)%nat
  /\ forall b, In b businesses ->
       Discovery.domain b <> ""
       /\ (forall excluded, In excluded Discovery.excluded_patterns ->
             py_in excluded (lower (Discovery.domain b)) = false)
       /\ (exists host,
             netloc (Discovery.url b) = Some host
             /\ ((startswith "www." host = false /\ Discovery.domain b = host)
                 \/ host = "www." +:+ Discovery.domain b))
       /\ exists results r t rest,
            api search_term region = inr (200, Some results)
            /\ In r (firstn 5 results)
            /\ Discovery.link r = Some (Discovery.url b)
            /\ Discovery.title r = Some t
            /\ t = Discovery.name b +:+ rest
            /\ (String.length (Discovery.name b) = 50%nat \/ rest = "").
Proof.
  cbv zeta. unfold Discovery._search_businesses.
  destruct (api search_term region) as [e | [status organic]];
    [split; [simpl; lia | intros b []]|].
  destruct (status =? 200)%Z eqn:Hs; [|split; [simpl; lia | intros b []]].
  apply Z.eqb_eq in Hs. subst status.
  destruct organic as [results|]; [|split; [simpl; lia | intros b []]].
  split.
  - etransitivity; [apply collect_businesses_length | apply firstn_le_length].
  - intros b Hb.
    destruct (collect_businesses_In _ _ _ Hb)
      as (r & l & t & d & Hr & Hl & Ht & Hx & -> & Hd & He).
    cbn [Discovery.name Discovery.domain Discovery.url].
    split; [intros E; rewrite E in Hd; discriminate Hd|].
    split; [intros excluded Hin; exact (any_in_false _ _ _ He Hin)|].
    split.
    + unfold Discovery.extract_domain in Hx.
      destruct (netloc l) as [host|]; [|discriminate Hx].
      exists host. split; [reflexivity|].
      destruct (startswith "www." host) eqn:Hw; injection Hx as <-.
      * right. apply drop_www. exact Hw.
      * left. split; reflexivity.
    + destruct (take_prefix 50 t) as (rest & Et & Hlen).
      exists results, r, t, rest. repeat apply conj; auto.
Qed.

Lemma rstrip_no_slash (s : string) :
  Utils.ends_with_slash (Discovery.rstrip_slash s) = false.
Proof.
  induction s as [|c s IH]; [reflexivity|].
  cbn [Discovery.rstrip_slash].
  destruct (Discovery.rstrip_slash s) as [|c' r].
  - destruct (Ascii.eqb c "/") eqn:E; [reflexivity|].
    cbn [Utils.ends_with_slash]. exact E.
  - exact IH.
Qed.

Lemma rstrip_fixed (s : string) :
  Utils.ends_with_slash s = false -> Discovery.rstrip_slash s = s.
Proof.
  induction s as [|c s IH]; [reflexivity|].
  destruct s as [|c' r].
  - cbn [Utils.ends_with_slash Discovery.rstrip_slash]. intros ->. reflexivity.
  - intros H. change (Utils.ends_with_slash (String c' r) = false) in H.
    specialize (IH H). cbn [Discovery.rstrip_slash] in *.
    rewrite IH. reflexivity.
Qed.

(** X29: a cleaned URL never ends with a slash. *)
Theorem X29_clean_url_has_no_trailing_slash (url : string) :
  Utils.ends_with_slash (Utils.clean_url url) = false.
Proof.
  unfold Utils.clean_url. cbv zeta. apply rstrip_no_slash.
Qed.

(** X30: cleaning is idempotent on every URL whose cleaned form still
    begins with http:// or https://; the condition is needed, since a
    URL made of a scheme and slashes only loses the slashes of the scheme
    and gets a second scheme when cleaned again. *)
Theorem X30_clean_url_idempotent (url : string) :
  startswith "http://" (Utils.clean_url url)
  || startswith "https://" (Utils.clean_url url) = true ->
  Utils.clean_url (Utils.clean_url url) = Utils.clean_url url.
Proof.
  intros H. unfold Utils.clean_url at 1. cbv zeta. rewrite H.
  cbn [negb]. apply rstrip_fixed.
  unfold Utils.clean_url. cbv zeta. apply rstrip_no_slash.
Qed.

Lemma X30_witness :
  Utils.clean_url (Utils.clean_url "shop.example//") = Utils.clean_url "shop.example//".
Proof.
  apply (X30_clean_url_idempotent "shop.example//"). reflexivity.
Defined.
